(** * Guest/stay identity resolution and lifecycle synchronisation

    A shallow embedding of the identity resolver, the PMS synchronisation
    engine, the journey scheduler, the task dedup gate and the WhatsApp
    room-linking path of the hotel concierge, with the properties of its
    specification stated and settled against the code.

    Conventions of the embedding:
    - a table is the list of its rows in storage order; a query without an
      [order_by] returns rows in that order, [.first()] is the head;
    - a primary key is an integer ([Z]); an insert takes a key above every
      key in use in its table;
    - a [datetime] is its number of microseconds since the epoch ([Z]),
      the resolution of Python's [datetime];
    - a [str] is a [string] of bytes; the character classes [\d], [\s] and
      [str.isdigit] are taken on ASCII. *)

From Stdlib Require Import ZArith List String Ascii Bool Lia Sorted.
From stdpp Require Import base tactics option list strings gmap.
Import ListNotations.

Local Open Scope string_scope.
Local Open Scope list_scope.
Local Open Scope Z_scope.

(* ===================================================================== *)
(** * SHA-256 ([hashlib.sha256(..).hexdigest()]) *)
(* ===================================================================== *)

Module Sha256.

Definition mask32 : Z := 0xFFFFFFFF.
Definition w32 (x : Z) : Z := Z.land x mask32.
Definition add32 (x y : Z) : Z := w32 (x + y).
Definition rotr (n x : Z) : Z :=
  Z.lor (Z.shiftr x n) (w32 (Z.shiftl x (32 - n))).
Definition shr (n x : Z) : Z := Z.shiftr x n.
Definition not32 (x : Z) : Z := Z.lxor x mask32.

Definition Ch (x y z : Z) : Z := Z.lxor (Z.land x y) (Z.land (not32 x) z).
Definition Maj (x y z : Z) : Z :=
  Z.lxor (Z.lxor (Z.land x y) (Z.land x z)) (Z.land y z).
Definition Sigma0 (x : Z) : Z := Z.lxor (Z.lxor (rotr 2 x) (rotr 13 x)) (rotr 22 x).
Definition Sigma1 (x : Z) : Z := Z.lxor (Z.lxor (rotr 6 x) (rotr 11 x)) (rotr 25 x).
Definition sigma0 (x : Z) : Z := Z.lxor (Z.lxor (rotr 7 x) (rotr 18 x)) (shr 3 x).
Definition sigma1 (x : Z) : Z := Z.lxor (Z.lxor (rotr 17 x) (rotr 19 x)) (shr 10 x).

(** The round constants are the first 32 bits of the fractional parts of
    the cube roots of the first 64 primes, the initial hash value those of
    the square roots of the first 8 (FIPS 180-4, 4.2.2 and 5.3.3). *)
Definition primes : list Z :=
  [ 2; 3; 5; 7; 11; 13; 17; 19; 23; 29; 31; 37; 41; 43; 47; 53; 59; 61; 67; 71;
    73; 79; 83; 89; 97; 101; 103; 107; 109; 113; 127; 131; 137; 139; 149; 151;
    157; 163; 167; 173; 179; 181; 191; 193; 197; 199; 211; 223; 227; 229; 233;
    239; 241; 251; 257; 263; 269; 271; 277; 281; 283; 293; 307; 311 ].

(** The integer cube root, built from its bits, highest first. *)
Definition cube_root (n : Z) : Z :=
  fold_left (fun r b => let r' := r + Z.shiftl 1 (Z.of_nat b) in
                        if r' * r' * r' <=? n then r' else r)
            (rev (seq 0 40)) 0.

Definition K : list Z := List.map (fun p => w32 (cube_root (Z.shiftl p 96))) primes.

Definition H0 : list Z :=
  List.map (fun p => w32 (Z.sqrt (Z.shiftl p 64))) (firstn 8 primes).

(** Message bytes, the [0x80] marker, zero fill to 56 mod 64, and the bit
    length on eight bytes, most significant first. *)
Definition be_bytes (n : nat) (x : Z) : list Z :=
  List.map (fun i => Z.land (Z.shiftr x (8 * Z.of_nat i)) 0xFF) (rev (seq 0 n)).

Definition pad (msg : list Z) : list Z :=
  let len := Z.of_nat (List.length msg) in
  let fill := Z.to_nat ((55 - len) mod 64) in
  msg ++ [0x80] ++ repeat 0 fill ++ be_bytes 8 (8 * len).

Fixpoint words_of (fuel : nat) (bs : list Z) : list Z :=
  match fuel, bs with
  | S f, b0 :: b1 :: b2 :: b3 :: rest =>
      (Z.shiftl b0 24 + Z.shiftl b1 16 + Z.shiftl b2 8 + b3) :: words_of f rest
  | _, _ => []
  end.

Definition nthw (ws : list Z) (i : nat) : Z := List.nth i ws 0.

(** The message schedule, extended one word at a time from 16 to 64. *)
Fixpoint schedule (n : nat) (ws : list Z) : list Z :=
  match n with
  | O => ws
  | S n' =>
      let t := List.length ws in
      let w := add32 (add32 (sigma1 (nthw ws (t - 2))) (nthw ws (t - 7)))
                     (add32 (sigma0 (nthw ws (t - 15))) (nthw ws (t - 16))) in
      schedule n' (ws ++ [w])
  end.

Record regs := Regs { ra : Z; rb : Z; rc : Z; rd : Z; re : Z; rf : Z; rg : Z; rh : Z }.

Definition round (r : regs) (kw : Z * Z) : regs :=
  let '(k, w) := kw in
  let t1 := add32 (add32 (add32 (rh r) (Sigma1 (re r))) (Ch (re r) (rf r) (rg r)))
                  (add32 k w) in
  let t2 := add32 (Sigma0 (ra r)) (Maj (ra r) (rb r) (rc r)) in
  Regs (add32 t1 t2) (ra r) (rb r) (rc r) (add32 (rd r) t1) (re r) (rf r) (rg r).

Definition regs_of (h : list Z) : regs :=
  Regs (nthw h 0) (nthw h 1) (nthw h 2) (nthw h 3)
       (nthw h 4) (nthw h 5) (nthw h 6) (nthw h 7).

Definition compress (h : list Z) (block : list Z) : list Z :=
  let ws := schedule 48 block in
  let r0 := regs_of h in
  let r := fold_left round (combine K ws) r0 in
  [ add32 (ra r0) (ra r); add32 (rb r0) (rb r); add32 (rc r0) (rc r);
    add32 (rd r0) (rd r); add32 (re r0) (re r); add32 (rf r0) (rf r);
    add32 (rg r0) (rg r); add32 (rh r0) (rh r) ].

Fixpoint blocks (fuel : nat) (h : list Z) (ws : list Z) : list Z :=
  match fuel with
  | O => h
  | S f =>
      match ws with
      | [] => h
      | _ => blocks f (compress h (firstn 16 ws)) (skipn 16 ws)
      end
  end.

Definition digest (msg : list Z) : list Z :=
  let p := pad msg in
  let ws := words_of (List.length p) p in
  blocks (List.length ws) H0 ws.

Definition hex_digit (d : Z) : ascii :=
  List.nth (Z.to_nat d)
    (list_ascii_of_string "0123456789abcdef") "0"%char.

Definition hex_word (w : Z) : list ascii :=
  List.map (fun i => hex_digit (Z.land (Z.shiftr w (4 * Z.of_nat i)) 0xF))
           (rev (seq 0 8)).

Definition bytes_of_string (s : string) : list Z :=
  List.map (fun c => Z.of_nat (nat_of_ascii c)) (list_ascii_of_string s).

(** [hashlib.sha256(s.encode()).hexdigest()] *)
Definition hexdigest (s : string) : string :=
  string_of_list_ascii (List.concat (List.map hex_word (digest (bytes_of_string s)))).

End Sha256.

(* ===================================================================== *)
(** * The persisted surface ([app/models/models.py]) *)
(* ===================================================================== *)

Module StayStatus.
Inductive t := PRE_STAY | IN_HOUSE | POST_STAY | CANCELLED.
#[global] Instance eq_dec : EqDecision t.
Proof. solve_decision. Defined.
End StayStatus.

Module JourneyEventStatus.
Inductive t := PENDING | SENT | CANCELLED.
#[global] Instance eq_dec : EqDecision t.
Proof. solve_decision. Defined.
End JourneyEventStatus.

Module ConversationStatus.
Inductive t := OPEN | ASSIGNED_TO_STAFF | CLOSED.
#[global] Instance eq_dec : EqDecision t.
Proof. solve_decision. Defined.
End ConversationStatus.

Module MessageDirection.
Inductive t := INCOMING | OUTGOING.
#[global] Instance eq_dec : EqDecision t.
Proof. solve_decision. Defined.
End MessageDirection.

Module TaskStatus.
Inductive t := OPEN | IN_PROGRESS | DONE | CANCELLED.
#[global] Instance eq_dec : EqDecision t.
Proof. solve_decision. Defined.
End TaskStatus.

Module TaskType.
Inductive t := HOUSEKEEPING | MAINTENANCE | LOST_AND_FOUND | FOOD_BEVERAGE | OTHER.
#[global] Instance eq_dec : EqDecision t.
Proof. solve_decision. Defined.
End TaskType.

(** A [datetime], in microseconds. *)
Definition datetime := Z.
Definition timedelta_seconds (n : Z) : Z := n * 1000000.
Definition timedelta_minutes (n : Z) : Z := timedelta_seconds (n * 60).

(** One entry of the per-hotel room-code registry [settings["qr_tokens"]]. *)
Record QrToken := mkQrToken { qr_room : string; qr_created_at : datetime }.

(** [settings_staff_language], [bilingual_welcome] and [qr_tokens] are the
    entries [staff_language], [bilingual_welcome] and [qr_tokens] of the
    [settings] JSON column. *)
Record Hotel := mkHotel {
  hotel_id : Z;
  hotel_name : string;
  hotel_is_active : bool;
  subscription_tier : string;
  staff_language : option string;
  interface_language : string;
  settings_staff_language : option string;
  bilingual_welcome : bool;
  qr_tokens : gmap string QrToken;
}.

Record Guest := mkGuest {
  guest_id : Z;
  guest_hotel_id : Z;
  phone_hash : string;
  preferred_language : option string;
}.

Record GuestPII := mkGuestPII {
  pii_guest_id : Z;
  full_name : option string;
  phone_plain : option string;
  email_plain : option string;
}.

Record Room := mkRoom {
  room_id : Z;
  room_hotel_id : Z;
  room_number : string;
}.

Record Stay := mkStay {
  stay_id : Z;
  stay_hotel_id : Z;
  stay_guest_id : Z;
  stay_room_id : option Z;
  checkin_date : datetime;
  checkout_date : datetime;
  stay_status : StayStatus.t;
  whatsapp_opt_in : bool;
  stay_channel : option string;
  pms_reservation_id : option string;
}.

Record Conversation := mkConversation {
  conv_id : Z;
  conv_hotel_id : Z;
  conv_guest_id : Z;
  conv_stay_id : option Z;
  conv_room_id : option Z;
  conv_channel : string;
  conv_status : ConversationStatus.t;
  current_handler : string;
  last_qr_scan_at : option datetime;
  conv_created_at : datetime;
  conv_updated_at : datetime;
}.

Record Message := mkMessage {
  msg_id : Z;
  msg_conversation_id : Z;
  msg_direction : MessageDirection.t;
  msg_text : string;
  msg_created_at : datetime;
}.

Record Journey := mkJourney {
  journey_id : Z;
  journey_hotel_id : Z;
  journey_name : string;
  delay_minutes : Z;
  journey_is_active : bool;
  template_key : string;
}.

Record JourneyEvent := mkJourneyEvent {
  event_id : Z;
  event_hotel_id : Z;
  event_journey_id : Z;
  event_guest_id : Z;
  event_stay_id : Z;
  event_channel : string;
  run_at : datetime;
  event_status : JourneyEventStatus.t;
}.

Record Task := mkTask {
  task_id : Z;
  task_hotel_id : Z;
  task_stay_id : option Z;
  type_of_task : TaskType.t;
  task_status : TaskStatus.t;
  staff_summary : option string;
  task_priority : string;
  task_created_at : datetime;
}.

(** The relational store: one list of rows per table. *)
Record Store := mkStore {
  hotels : list Hotel;
  guests : list Guest;
  guest_piis : list GuestPII;
  rooms : list Room;
  stays : list Stay;
  conversations : list Conversation;
  messages : list Message;
  journeys : list Journey;
  journey_events : list JourneyEvent;
  tasks : list Task;
}.

(** The next value of an autoincrement primary key: above every key in use. *)
Definition next_id {A} (key : A -> Z) (rows : list A) : Z :=
  1 + fold_right Z.max 0 (List.map key rows).

(** [query.first()] *)
Definition first {A} (rows : list A) : option A := List.head rows.

(** Python truthiness of a [str] and of an [Optional[str]]. *)
Definition truthy (s : string) : bool := negb (String.eqb s "").
Definition truthy_opt (s : option string) : bool :=
  match s with Some s => truthy s | None => false end.

(** Table setters (the columns not named are kept). *)
Definition set_hotels (db : Store) (x : list Hotel) : Store :=
  mkStore x (guests db) (guest_piis db) (rooms db) (stays db) (conversations db)
          (messages db) (journeys db) (journey_events db) (tasks db).
Definition set_guests (db : Store) (x : list Guest) : Store :=
  mkStore (hotels db) x (guest_piis db) (rooms db) (stays db) (conversations db)
          (messages db) (journeys db) (journey_events db) (tasks db).
Definition set_guest_piis (db : Store) (x : list GuestPII) : Store :=
  mkStore (hotels db) (guests db) x (rooms db) (stays db) (conversations db)
          (messages db) (journeys db) (journey_events db) (tasks db).
Definition set_rooms (db : Store) (x : list Room) : Store :=
  mkStore (hotels db) (guests db) (guest_piis db) x (stays db) (conversations db)
          (messages db) (journeys db) (journey_events db) (tasks db).
Definition set_stays (db : Store) (x : list Stay) : Store :=
  mkStore (hotels db) (guests db) (guest_piis db) (rooms db) x (conversations db)
          (messages db) (journeys db) (journey_events db) (tasks db).
Definition set_conversations (db : Store) (x : list Conversation) : Store :=
  mkStore (hotels db) (guests db) (guest_piis db) (rooms db) (stays db) x
          (messages db) (journeys db) (journey_events db) (tasks db).
Definition set_messages (db : Store) (x : list Message) : Store :=
  mkStore (hotels db) (guests db) (guest_piis db) (rooms db) (stays db)
          (conversations db) x (journeys db) (journey_events db) (tasks db).
Definition set_journey_events (db : Store) (x : list JourneyEvent) : Store :=
  mkStore (hotels db) (guests db) (guest_piis db) (rooms db) (stays db)
          (conversations db) (messages db) (journeys db) x (tasks db).
Definition set_tasks (db : Store) (x : list Task) : Store :=
  mkStore (hotels db) (guests db) (guest_piis db) (rooms db) (stays db)
          (conversations db) (messages db) (journeys db) (journey_events db) x.

(** Sorted with the largest key first. *)
Definition sorted_desc {A} (key : A -> Z) (l : list A) : Prop :=
  StronglySorted (fun a b => key b <= key a) l.

(** [query.order_by(key.desc())]: a stable sort, largest key first. The
    database leaves the order of rows with equal keys open; the model keeps
    them in storage order. *)
Fixpoint insert_desc {A} (key : A -> Z) (x : A) (l : list A) : list A :=
  match l with
  | [] => [x]
  | y :: r => if key y <=? key x then x :: l else y :: insert_desc key x r
  end.
Definition order_by_desc {A} (key : A -> Z) (l : list A) : list A :=
  fold_right (insert_desc key) [] l.

(** Python truthiness of an [Optional[int]]. *)
Definition truthy_int (o : option Z) : bool :=
  match o with Some n => negb (n =? 0) | None => false end.

(* ===================================================================== *)
(** * Identity resolver ([app/services/identity_resolver.py]) *)
(* ===================================================================== *)

Module IdentityResolver.

Record Settings := mkSettings { default_hotel_id : Z }.

Record IdentityContext := mkIdentityContext {
  ctx_hotel : Hotel;
  ctx_guest : Guest;
  ctx_stay : option Stay;
  ctx_state : StayStatus.t;
}.

Definition is_digit (c : ascii) : bool :=
  ((48 <=? nat_of_ascii c) && (nat_of_ascii c <=? 57))%nat.

(** [re.sub(r"\D", "", s)] *)
Fixpoint only_digits (s : string) : string :=
  match s with
  | EmptyString => EmptyString
  | String c r => if is_digit c then String c (only_digits r) else only_digits r
  end.

(** [s[n:]] *)
Fixpoint str_drop (n : nat) (s : string) : string :=
  match n, s with
  | O, _ => s
  | S n', String _ r => str_drop n' r
  | S _, EmptyString => EmptyString
  end.

Definition startswith (s p : string) : bool := String.prefix p s.

(** [variants.add(v)] on a set kept as a duplicate-free list. *)
Definition set_add (v : string) (s : list string) : list string :=
  if decide (v ∈ s) then s else s ++ [v].

Definition phone_variants (raw_phone : string) : list string :=
  let digits := only_digits raw_phone in
  if negb (truthy digits) then []
  else
    let digits := if startswith digits "00" then str_drop 2 digits else digits in
    let variants := set_add digits [] in
    let variants :=
      if startswith digits "0" && (1 <? String.length digits)%nat
      then set_add (str_drop 1 digits) variants else variants in
    let variants :=
      if startswith digits "40" && (2 <? String.length digits)%nat
      then set_add (String.append "0" (str_drop 2 digits)) variants else variants in
    List.filter truthy variants.

(** [sorted(variants, key=len, reverse=True)[0]] *)
Definition canonical_phone (raw_phone : string) : option string :=
  let variants := phone_variants raw_phone in
  match variants with
  | [] => None
  | _ => first (order_by_desc (fun v => Z.of_nat (String.length v)) variants)
  end.

Definition guest_pii (db : Store) (guest : Guest) : option GuestPII :=
  first (filter (λ p, pii_guest_id p = guest_id guest) (guest_piis db)).

Definition _ensure_guest_pii (db : Store) (guest : Guest) (phone : string) : Store :=
  if negb (truthy phone) then db
  else
    match canonical_phone phone with
    | None => db
    | Some canonical =>
        match guest_pii db guest with
        | Some pii =>
            if truthy_opt (phone_plain pii) then db
            else
              (* guest.pii.phone_plain = canonical *)
              set_guest_piis db
                (List.map (fun p =>
                   if decide (pii_guest_id p = guest_id guest)
                   then mkGuestPII (pii_guest_id p) (full_name p) (Some canonical)
                                   (email_plain p)
                   else p) (guest_piis db))
        | None =>
            set_guest_piis db
              (guest_piis db ++ [mkGuestPII (guest_id guest) None (Some canonical) None])
        end
    end.

Definition _ensure_hotel (db : Store) (hid : Z) : option Hotel :=
  first (filter (λ h, hotel_id h = hid) (hotels db)).

(** A [Stay] as [determine_state] reads it. The columns are NOT NULL, so a
    row loaded from the table has all three attributes; an object built in
    memory may lack them. *)
Record StayObject := mkStayObject {
  obj_checkin_date : option datetime;
  obj_checkout_date : option datetime;
  obj_status : option StayStatus.t;
}.

Definition stay_object (s : Stay) : StayObject :=
  mkStayObject (Some (checkin_date s)) (Some (checkout_date s)) (Some (stay_status s)).

(** [now] is the clock read by [datetime.now(timezone.utc)]. *)
Definition determine_state (stay : option StayObject) (now : datetime) : StayStatus.t :=
  match stay with
  | None => StayStatus.POST_STAY
  | Some stay =>
      match obj_checkin_date stay, obj_checkout_date stay with
      | Some checkin, Some checkout =>
          if now <? checkin then StayStatus.PRE_STAY
          else if (checkin <=? now) && (now <? checkout) then StayStatus.IN_HOUSE
          else StayStatus.POST_STAY
      | _, _ =>
          match obj_status stay with
          | Some status => status
          | None => StayStatus.POST_STAY
          end
      end
  end.

(** The rows of [query(Guest, Hotel, Stay).join(Hotel, ..).join(Stay, ..)]. *)
Definition guest_hotel_stay (db : Store) : list (Guest * Hotel * Stay) :=
  g ← guests db;
  h ← filter (λ h, guest_hotel_id g = hotel_id h) (hotels db);
  s ← filter (λ s, stay_guest_id s = guest_id g) (stays db);
  [(g, h, s)].

Definition _find_guest_globally (db : Store) (variant_hashes : list string)
  : option (Guest * Hotel * Stay) :=
  match variant_hashes with
  | [] => None
  | _ =>
      let results :=
        order_by_desc (fun r => checkin_date r.2)
          (filter (λ r, phone_hash r.1.1 ∈ variant_hashes
                        ∧ stay_status r.2 = StayStatus.IN_HOUSE)
                  (guest_hotel_stay db)) in
      first results
  end.

(** [db.add(Guest(..)); db.commit()] under [uq_guest_hotel_phone]: a
    conflicting row raises [IntegrityError], and the caller rolls back and
    re-queries by the same key. *)
Definition insert_guest (db : Store) (hid : Z) (hash_value : string) : Guest * Store :=
  match first (filter (λ g, guest_hotel_id g = hid ∧ phone_hash g = hash_value)
                      (guests db)) with
  | Some g => (g, db)
  | None =>
      let g := mkGuest (next_id guest_id (guests db)) hid hash_value None in
      (g, set_guests db (guests db ++ [g]))
  end.

Definition resolve_identity (settings : Settings) (db : Store) (now : datetime)
    (wa_id : string) (hotel_id_hint : option Z) : option IdentityContext * Store :=
  let variants := phone_variants wa_id in
  let variant_hashes := List.map Sha256.hexdigest variants in
  let use_global_lookup :=
    match hotel_id_hint with
    | None => true
    | Some h => h =? default_hotel_id settings
    end in
  let global_result :=
    if use_global_lookup then _find_guest_globally db variant_hashes else None in
  match global_result with
  | Some (guest, hotel, stay) =>
      (Some (mkIdentityContext hotel guest (Some stay)
                               (determine_state (Some (stay_object stay)) now)), db)
  | None =>
      let hid := if truthy_int hotel_id_hint then default 0 hotel_id_hint
                 else default_hotel_id settings in
      match _ensure_hotel db hid with
      | None => (None, db)
      | Some hotel =>
          let found :=
            match variant_hashes with
            | [] => None
            | _ => first (filter (λ g, guest_hotel_id g = hotel_id hotel
                                       ∧ phone_hash g ∈ variant_hashes) (guests db))
            end in
          let '(guest, db) :=
            match found with
            | Some g => (g, db)
            | None =>
                let hash_value :=
                  match canonical_phone wa_id with
                  | Some canonical => Sha256.hexdigest canonical
                  | None => Sha256.hexdigest wa_id
                  end in
                insert_guest db (hotel_id hotel) hash_value
            end in
          let db := _ensure_guest_pii db guest wa_id in
          let stay :=
            first (order_by_desc checkin_date
                     (filter (λ s, stay_guest_id s = guest_id guest) (stays db))) in
          (Some (mkIdentityContext hotel guest stay
                   (determine_state (stay_object <$> stay) now)), db)
      end
  end.

End IdentityResolver.

(* ===================================================================== *)
(** * PMS synchronisation engine ([app/services/pms/sync_engine.py]) *)
(* ===================================================================== *)

Module ReservationState.
Inductive t := IN_HOUSE | CHECKED_OUT | CONFIRMED | CANCELLED.
#[global] Instance eq_dec : EqDecision t.
Proof. solve_decision. Defined.
End ReservationState.

Module SyncEngine.

Record PMSReservation := mkPMSReservation {
  reservation_id : string;
  guest_name : string;
  guest_phone : string;
  guest_email : option string;
  res_room_number : option string;
  state : ReservationState.t;
  res_checkin_date : datetime;
  res_checkout_date : datetime;
  res_preferred_language : option string;
}.

Record SyncStats := mkSyncStats {
  checkins_processed : Z;
  checkouts_processed : Z;
  guests_created : Z;
  stays_created : Z;
  stays_closed : Z;
  journeys_triggered : Z;
  errors : Z;
}.

Definition SyncStats_init : SyncStats := mkSyncStats 0 0 0 0 0 0 0.

Definition add_checkins (st : SyncStats) (n : Z) : SyncStats :=
  mkSyncStats (checkins_processed st + n) (checkouts_processed st) (guests_created st)
              (stays_created st) (stays_closed st) (journeys_triggered st) (errors st).
Definition add_checkouts (st : SyncStats) (n : Z) : SyncStats :=
  mkSyncStats (checkins_processed st) (checkouts_processed st + n) (guests_created st)
              (stays_created st) (stays_closed st) (journeys_triggered st) (errors st).
Definition add_guests_created (st : SyncStats) (n : Z) : SyncStats :=
  mkSyncStats (checkins_processed st) (checkouts_processed st) (guests_created st + n)
              (stays_created st) (stays_closed st) (journeys_triggered st) (errors st).
Definition add_stays_created (st : SyncStats) (n : Z) : SyncStats :=
  mkSyncStats (checkins_processed st) (checkouts_processed st) (guests_created st)
              (stays_created st + n) (stays_closed st) (journeys_triggered st) (errors st).
Definition add_stays_closed (st : SyncStats) (n : Z) : SyncStats :=
  mkSyncStats (checkins_processed st) (checkouts_processed st) (guests_created st)
              (stays_created st) (stays_closed st + n) (journeys_triggered st) (errors st).
Definition add_journeys_triggered (st : SyncStats) (n : Z) : SyncStats :=
  mkSyncStats (checkins_processed st) (checkouts_processed st) (guests_created st)
              (stays_created st) (stays_closed st) (journeys_triggered st + n) (errors st).

(** [sha256("".join(c for c in phone if c.isdigit()))] *)
Definition _hash_phone (phone : string) : string :=
  Sha256.hexdigest (IdentityResolver.only_digits phone).

Definition _get_or_create_guest (db : Store) (hid : Z) (phone : string) : Guest * Store :=
  let phone_hash' := _hash_phone phone in
  match first (filter (λ g, guest_hotel_id g = hid ∧ phone_hash g = phone_hash')
                      (guests db)) with
  | Some guest => (guest, db)
  | None => IdentityResolver.insert_guest db hid phone_hash'
  end.

Definition _upsert_guest_pii (db : Store) (guest : Guest) (name phone : string)
    (email : option string) : Store :=
  match IdentityResolver.guest_pii db guest with
  | None =>
      set_guest_piis db
        (guest_piis db ++ [mkGuestPII (guest_id guest) (Some name) (Some phone) email])
  | Some _ =>
      (* Update with latest data from PMS *)
      set_guest_piis db
        (List.map (fun p =>
           if decide (pii_guest_id p = guest_id guest)
           then mkGuestPII (pii_guest_id p) (Some name) (Some phone)
                           (if truthy_opt email then email else email_plain p)
           else p) (guest_piis db))
  end.

Definition _get_or_create_room (db : Store) (hid : Z) (number : option string)
  : option Z * Store :=
  match number with
  | None => (None, db)
  | Some number =>
      if negb (truthy number) then (None, db)
      else
        match first (filter (λ r, room_hotel_id r = hid ∧ room_number r = number)
                            (rooms db)) with
        | Some room => (Some (room_id room), db)
        | None =>
            let room := mkRoom (next_id room_id (rooms db)) hid number in
            (Some (room_id room), set_rooms db (rooms db ++ [room]))
        end
  end.

(** [stay.status = status] on the rows selected by [sel]; the ORM writes
    each back by primary key. *)
Definition set_stay_status (status : StayStatus.t) (s : Stay) : Stay :=
  mkStay (stay_id s) (stay_hotel_id s) (stay_guest_id s) (stay_room_id s)
         (checkin_date s) (checkout_date s) status (whatsapp_opt_in s)
         (stay_channel s) (pms_reservation_id s).

Definition update_stays (ids : list Z) (f : Stay -> Stay) (l : list Stay) : list Stay :=
  List.map (fun s => if decide (stay_id s ∈ ids) then f s else s) l.

Definition _close_previous_stays (db : Store) (gid : Z) (rid : option Z) : Z * Store :=
  (* Close guest's previous stays *)
  let previous_stays :=
    filter (λ s, stay_guest_id s = gid ∧ stay_status s = StayStatus.IN_HOUSE) (stays db) in
  let db := set_stays db (update_stays (List.map stay_id previous_stays)
                            (set_stay_status StayStatus.POST_STAY) (stays db)) in
  let closed_count := Z.of_nat (List.length previous_stays) in
  (* Close any other guest's stay in this room (room turnover) *)
  if truthy_int rid then
    let room_stays :=
      filter (λ s, stay_room_id s = rid ∧ stay_status s = StayStatus.IN_HOUSE
                   ∧ stay_guest_id s ≠ gid) (stays db) in
    let db := set_stays db (update_stays (List.map stay_id room_stays)
                              (set_stay_status StayStatus.POST_STAY) (stays db)) in
    (closed_count + Z.of_nat (List.length room_stays), db)
  else (closed_count, db).

Definition welcome_journey (db : Store) (hid : Z) : option Journey :=
  first (filter (λ j, journey_hotel_id j = hid
                      ∧ journey_name j = "AFTER_CHECKIN_WELCOME"
                      ∧ journey_is_active j = true) (journeys db)).

Definition existing_event (db : Store) (sid jid : Z) : option JourneyEvent :=
  first (filter (λ e, event_stay_id e = sid ∧ event_journey_id e = jid
                      ∧ (event_status e = JourneyEventStatus.PENDING
                         ∨ event_status e = JourneyEventStatus.SENT))
                (journey_events db)).

Definition find_existing_stay (db : Store) (hid gid : Z) (rsv : string) : option Stay :=
  first (filter (λ s, stay_hotel_id s = hid ∧ stay_guest_id s = gid
                      ∧ pms_reservation_id s = Some rsv) (stays db)).

Definition _handle_checkin (db : Store) (hid : Z) (reservation : PMSReservation)
    (stats : SyncStats) (now : datetime) : Store * SyncStats :=
  (* 1. Get or create guest *)
  let '(guest, db) := _get_or_create_guest db hid (guest_phone reservation) in
  let stats :=
    match first (filter (λ g, guest_id g = guest_id guest) (guests db)) with
    | None => add_guests_created stats 1
    | Some _ => stats
    end in
  (* 2. Update guest PII *)
  let db := _upsert_guest_pii db guest (guest_name reservation)
              (guest_phone reservation) (guest_email reservation) in
  (* 3. Update guest language preference *)
  let db :=
    if truthy_opt (res_preferred_language reservation)
       && negb (truthy_opt (preferred_language guest))
    then set_guests db
           (List.map (fun g =>
              if decide (guest_id g = guest_id guest)
              then mkGuest (guest_id g) (guest_hotel_id g) (phone_hash g)
                           (res_preferred_language reservation)
              else g) (guests db))
    else db in
  (* 4. Get or create room *)
  let '(rid, db) := _get_or_create_room db hid (res_room_number reservation) in
  (* 5. Check if stay already exists for this reservation *)
  match find_existing_stay db hid (guest_id guest) (reservation_id reservation) with
  | Some existing_stay =>
      (* Update existing stay (PMS may have sent updated dates) *)
      let db := set_stays db
        (update_stays [stay_id existing_stay]
           (fun s => mkStay (stay_id s) (stay_hotel_id s) (stay_guest_id s) rid
                            (res_checkin_date reservation) (res_checkout_date reservation)
                            (if decide (stay_status s ≠ StayStatus.IN_HOUSE)
                             then StayStatus.IN_HOUSE else stay_status s)
                            (whatsapp_opt_in s) (stay_channel s)
                            (pms_reservation_id s))
           (stays db)) in
      (db, add_checkins stats 1)
  | None =>
      (* 6. Close any previous stays (room turnover safety) *)
      let '(closed, db) := _close_previous_stays db (guest_id guest) rid in
      let stats := add_stays_closed stats closed in
      (* 7. Create new stay *)
      let stay := mkStay (next_id stay_id (stays db)) hid (guest_id guest) rid
                         (res_checkin_date reservation) (res_checkout_date reservation)
                         StayStatus.IN_HOUSE true (Some "pms")
                         (Some (reservation_id reservation)) in
      let db := set_stays db (stays db ++ [stay]) in
      let stats := add_stays_created stats 1 in
      (* 8. Trigger welcome journey event *)
      let '(db, stats) :=
        match welcome_journey db hid with
        | Some journey =>
            match existing_event db (stay_id stay) (journey_id journey) with
            | None =>
                let run_at := now + timedelta_minutes (delay_minutes journey) in
                let event := mkJourneyEvent (next_id event_id (journey_events db)) hid
                               (journey_id journey) (guest_id guest) (stay_id stay)
                               "whatsapp" run_at JourneyEventStatus.PENDING in
                (set_journey_events db (journey_events db ++ [event]),
                 add_journeys_triggered stats 1)
            | Some _ => (db, stats)
            end
        | None => (db, stats)
        end in
      (db, add_checkins stats 1)
  end.

(** [_handle_checkout] *)
Definition feedback_journey (db : Store) (hid : Z) : option Journey :=
  first (filter (λ j, journey_hotel_id j = hid
                      ∧ journey_name j = "AFTER_CHECKOUT_FEEDBACK"
                      ∧ journey_is_active j = true) (journeys db)).

Definition _handle_checkout (db : Store) (hid : Z) (reservation : PMSReservation)
    (stats : SyncStats) (now : datetime) : Store * SyncStats :=
  match first (filter (λ s, stay_hotel_id s = hid
                            ∧ pms_reservation_id s = Some (reservation_id reservation)
                            ∧ stay_status s = StayStatus.IN_HOUSE) (stays db)) with
  | None => (db, stats)
  | Some stay =>
      let db := set_stays db (update_stays [stay_id stay]
                                (set_stay_status StayStatus.POST_STAY) (stays db)) in
      let stats := add_stays_closed stats 1 in
      let '(db, stats) :=
        match feedback_journey db hid with
        | Some journey =>
            match existing_event db (stay_id stay) (journey_id journey) with
            | None =>
                let run_at := now + timedelta_minutes (delay_minutes journey) in
                let event := mkJourneyEvent (next_id event_id (journey_events db)) hid
                               (journey_id journey) (stay_guest_id stay) (stay_id stay)
                               "whatsapp" run_at JourneyEventStatus.PENDING in
                (set_journey_events db (journey_events db ++ [event]),
                 add_journeys_triggered stats 1)
            | Some _ => (db, stats)
            end
        | None => (db, stats)
        end in
      (db, add_checkouts stats 1)
  end.

(** The reservation loop of [sync_hotel]. *)
Definition process_reservation (hid : Z) (now : datetime)
    (acc : Store * SyncStats) (reservation : PMSReservation) : Store * SyncStats :=
  let '(db, stats) := acc in
  match state reservation with
  | ReservationState.IN_HOUSE => _handle_checkin db hid reservation stats now
  | ReservationState.CHECKED_OUT => _handle_checkout db hid reservation stats now
  | _ => (db, stats)
  end.

End SyncEngine.

(* ===================================================================== *)
(** * Journey scheduler ([app/workers/jobs_journey.py]) *)
(* ===================================================================== *)

Module JobsJourney.

(** Result of an outbound send: delivered, refused, or an exception. *)
Inductive SendResult := SendOk | SendFailed | SendRaised.

(** What a cycle takes from outside the store, per event id: the clock read
    by [determine_state], the text built from the templates ([TEMPLATES] of
    [journey_templates] and [_get_welcome_message]), and the outcome of the
    transport calls. *)
Record World := mkWorld {
  clock : Z -> datetime;
  render_text : Store -> JourneyEvent -> string;
  provider_raises : Z -> bool;
  send : Z -> SendResult;
  followup_send : Z -> bool;
}.

(** One send attempt, by the id of the event it is made for. *)
Definition Trace := list Z.

Inductive Control := Continue | Raised.

Definition set_event_status (db : Store) (eid : Z) (st : JourneyEventStatus.t) : Store :=
  set_journey_events db
    (List.map (fun e =>
       if decide (event_id e = eid)
       then mkJourneyEvent (event_id e) (event_hotel_id e) (event_journey_id e)
                           (event_guest_id e) (event_stay_id e) (event_channel e)
                           (run_at e) st
       else e) (journey_events db)).

Definition event_stay (db : Store) (e : JourneyEvent) : option Stay :=
  first (filter (λ s, stay_id s = event_stay_id e) (stays db)).
Definition event_guest (db : Store) (e : JourneyEvent) : option Guest :=
  first (filter (λ g, guest_id g = event_guest_id e) (guests db)).
Definition event_journey (db : Store) (e : JourneyEvent) : option Journey :=
  first (filter (λ j, journey_id j = event_journey_id e) (journeys db)).
Definition stay_room (db : Store) (s : Stay) : option Room :=
  match stay_room_id s with
  | Some rid => first (filter (λ r, room_id r = rid) (rooms db))
  | None => None
  end.

Definition _get_wa_id (db : Store) (e : JourneyEvent) : option string :=
  match event_guest db e with
  | Some g =>
      match IdentityResolver.guest_pii db g with
      | Some pii => phone_plain pii
      | None => None
      end
  | None => None
  end.

Definition add_message (db : Store) (cid : Z) (text : string) (at_ : datetime) : Store :=
  set_messages db
    (messages db ++ [mkMessage (next_id msg_id (messages db)) cid
                               MessageDirection.OUTGOING text at_]).

(** The conversation the message goes to: the latest OPEN one, created if
    there is none, repointed if it belongs to another stay. *)
Definition event_conversation (db : Store) (e : JourneyEvent) (stay : Stay)
    (at_ : datetime) : Conversation * Store :=
  match first (order_by_desc conv_created_at
                 (filter (λ c, conv_hotel_id c = event_hotel_id e
                               ∧ conv_guest_id c = event_guest_id e
                               ∧ conv_channel c = "whatsapp"
                               ∧ conv_status c = ConversationStatus.OPEN)
                         (conversations db))) with
  | None =>
      let c := mkConversation (next_id conv_id (conversations db)) (event_hotel_id e)
                 (event_guest_id e) (Some (event_stay_id e)) None "whatsapp"
                 ConversationStatus.OPEN "BOT" None at_ at_ in
      (c, set_conversations db (conversations db ++ [c]))
  | Some c =>
      if decide (conv_stay_id c ≠ Some (event_stay_id e)) then
        let c' := mkConversation (conv_id c) (conv_hotel_id c) (conv_guest_id c)
                    (Some (event_stay_id e))
                    (if truthy_int (stay_room_id stay) then stay_room_id stay
                     else conv_room_id c)
                    (conv_channel c) (conv_status c) (current_handler c)
                    (last_qr_scan_at c) (conv_created_at c) at_ in
        (c', set_conversations db
               (List.map (fun x => if decide (conv_id x = conv_id c) then c' else x)
                         (conversations db)))
      else (c, db)
  end.

Definition hotel_lang (h : Hotel) : string :=
  match staff_language h with
  | Some l => if truthy l then l
              else if truthy (interface_language h) then interface_language h else "en"
  | None => if truthy (interface_language h) then interface_language h else "en"
  end.

(** The body of the dispatch loop for one event. *)
Definition process_event (w : World) (now : datetime) (db : Store) (event : JourneyEvent)
  : Control * Store * Trace :=
  let eid := event_id event in
  match event_stay db event with
  | None => (Continue, set_event_status db eid JourneyEventStatus.CANCELLED, [])
  | Some stay =>
      let state :=
        IdentityResolver.determine_state
          (Some (IdentityResolver.stay_object stay)) (clock w eid) in
      if decide (state ≠ StayStatus.IN_HOUSE) then
        (* keep pending to retry later until checkout passes; simple policy *)
        (Continue, db, [])
      else if negb (whatsapp_opt_in stay) then
        (Continue, set_event_status db eid JourneyEventStatus.CANCELLED, [])
      else if negb (truthy_opt (_get_wa_id db event)) then
        (Continue, set_event_status db eid JourneyEventStatus.CANCELLED, [])
      else
        let '(conversation, db) := event_conversation db event stay (clock w eid) in
        let hotel := first (filter (λ h, hotel_id h = event_hotel_id event) (hotels db)) in
        match event_journey db event with
        | None => (Raised, db, [])
        | Some journey =>
            let room_number :=
              match stay_room db stay with
              | Some r => room_number r
              | None => ""
              end in
            let text := render_text w db event in
            (* 3. IDEMPOTENCY: identical message sent in the last 5 minutes *)
            let recent_cutoff := now - timedelta_minutes 5 in
            match first (filter (λ m, msg_conversation_id m = conv_id conversation
                                      ∧ msg_direction m = MessageDirection.OUTGOING
                                      ∧ msg_text m = text
                                      ∧ recent_cutoff <= msg_created_at m)
                                (messages db)) with
            | Some _ => (Continue, set_event_status db eid JourneyEventStatus.SENT, [])
            | None =>
                match hotel with
                | None => (Continue, db, [])
                | Some hotel =>
                    if provider_raises w eid then
                      (Continue, set_event_status db eid JourneyEventStatus.CANCELLED, [])
                    else
                      let is_welcome :=
                        bool_decide (template_key journey = "welcome_after_checkin") in
                      let is_whatsapp :=
                        bool_decide (conv_channel conversation = "whatsapp") in
                      let lang_code :=
                        if bool_decide (hotel_lang hotel = "ro") then "ro" else "en_US" in
                      let db_text :=
                        if is_welcome && is_whatsapp
                        then String.append "Welcome message sent ("
                               (String.append (hotel_name hotel)
                                  (String.append ", room "
                                     (String.append room_number ")")))
                        else text in
                      let db := add_message db (conv_id conversation) db_text
                                            (clock w eid) in
                      match send w eid with
                      | SendRaised =>
                          (Continue,
                           set_event_status db eid JourneyEventStatus.CANCELLED, [eid])
                      | SendFailed =>
                          (Continue,
                           set_event_status db eid JourneyEventStatus.CANCELLED, [eid])
                      | SendOk =>
                          let '(db, tr) :=
                            if is_welcome && is_whatsapp && bilingual_welcome hotel
                               && bool_decide (lang_code = "ro")
                            then
                              if followup_send w eid
                              then (add_message db (conv_id conversation)
                                      "[Template: welcome_guest, lang: en]" (clock w eid),
                                    [eid; eid])
                              else (db, [eid; eid])
                            else (db, [eid]) in
                          (* 4. ATOMIC: commit SENT status right after success *)
                          (Continue, set_event_status db eid JourneyEventStatus.SENT, tr)
                      end
                end
            end
        end
  end.

(** The dispatch loop; an exception that escapes the body ends the job, with
    what was committed so far. *)
Fixpoint dispatch (w : World) (now : datetime) (events : list JourneyEvent)
    (db : Store) : Store * Trace :=
  match events with
  | [] => (db, [])
  | event :: rest =>
      match process_event w now db event with
      | (Raised, db, tr) => (db, tr)
      | (Continue, db, tr) =>
          let '(db, tr') := dispatch w now rest db in (db, tr ++ tr')
      end
  end.

(** 1. TIMEOUT: cancel stale events (PENDING > 30 minutes). *)
Definition cancel_stale (db : Store) (now : datetime) : Store :=
  let stale_cutoff := now - timedelta_minutes 30 in
  let stale_events :=
    filter (λ e, event_status e = JourneyEventStatus.PENDING ∧ run_at e <= stale_cutoff)
           (journey_events db) in
  fold_left (fun db stale => set_event_status db (event_id stale)
                               JourneyEventStatus.CANCELLED)
            stale_events db.

(** 2. Process fresh pending events. *)
Definition due_events (db : Store) (now : datetime) : list JourneyEvent :=
  filter (λ e, event_status e = JourneyEventStatus.PENDING ∧ run_at e <= now)
         (journey_events db).

Definition process_pending_journeys (w : World) (db : Store) (now : datetime)
  : Store * Trace :=
  let db := cancel_stale db now in
  dispatch w now (due_events db now) db.

(** A run of scheduler cycles, each with its own clock and world. *)
Fixpoint run_cycles (cycles : list (World * datetime)) (db : Store) : Store * Trace :=
  match cycles with
  | [] => (db, [])
  | (w, now) :: rest =>
      let '(db, tr) := process_pending_journeys w db now in
      let '(db, tr') := run_cycles rest db in
      (db, tr ++ tr')
  end.

End JobsJourney.

(* ===================================================================== *)
(** * Task creation ([app/agent/brain.py], [app/services/tasks.py]) *)
(* ===================================================================== *)

Module Brain.


End Brain.

Module Tasks.

Definition TASK_ACK_TEXT (t : TaskType.t) : string :=
  match t with
  | TaskType.HOUSEKEEPING => "We have notified housekeeping and will follow up shortly."
  | TaskType.MAINTENANCE => "Maintenance has been alerted. We'll keep you posted."
  | TaskType.LOST_AND_FOUND =>
      "We'll check with the team about your item and update you soon."
  | TaskType.FOOD_BEVERAGE =>
      "Your order has been sent to our kitchen/bar. We'll deliver it soon."
  | TaskType.OTHER => "We've logged your request and will update you soon."
  end.

Definition PRIORITY_DEFAULT : string := "NORMAL".

(** [build_staff_summary] stands for [build_staff_summary_for_task], which
    asks the language model; it is given the staff language. *)
Definition create_task_entry (db : Store) (hid : Z) (stay : option Z)
    (task_type : TaskType.t) (hotel : option Hotel) (staff_language_arg : option string)
    (priority : option string) (build_staff_summary : string -> string)
    (db_now : datetime) : Task * string * Store :=
  let '(summary, db) :=
    match hotel with
    | None => (None, db)
    | Some hotel =>
        let '(lang, db) :=
          if truthy_opt (staff_language hotel) then (staff_language hotel, db)
          else if truthy_opt (settings_staff_language hotel) then
            (settings_staff_language hotel,
             set_hotels db
               (List.map (fun h =>
                  if decide (hotel_id h = hotel_id hotel)
                  then mkHotel (hotel_id h) (hotel_name h) (hotel_is_active h)
                               (subscription_tier h) (settings_staff_language hotel)
                               (interface_language h) (settings_staff_language h)
                               (bilingual_welcome h) (qr_tokens h)
                  else h) (hotels db)))
          else (None, db) in
        let lang :=
          if truthy_opt lang then default "" lang
          else if truthy_opt staff_language_arg then default "" staff_language_arg
               else "ro" in
        (Some (build_staff_summary lang), db)
    end in
  let task := mkTask (next_id task_id (tasks db)) hid stay task_type TaskStatus.OPEN
                     summary
                     (if truthy_opt priority then default "" priority
                      else PRIORITY_DEFAULT)
                     db_now in
  (task, TASK_ACK_TEXT task_type, set_tasks db (tasks db ++ [task])).

End Tasks.

(* ===================================================================== *)
(** * Message text patterns ([re], [str.strip], [str.isdigit], on ASCII) *)
(* ===================================================================== *)

Module Text.

Definition code (c : ascii) : nat := nat_of_ascii c.

(** [\s] and the characters removed by [str.strip()]. *)
Definition is_space (c : ascii) : bool :=
  (((9 <=? code c) && (code c <=? 13)) || ((28 <=? code c) && (code c <=? 32)))%nat.
Definition is_digit (c : ascii) : bool := IdentityResolver.is_digit c.
(** [[a-f0-9]] *)
Definition is_hex (c : ascii) : bool :=
  (is_digit c || ((97 <=? code c) && (code c <=? 102)))%nat.
(** [[a-f0-9]] under [re.IGNORECASE] *)
Definition is_hex_ci (c : ascii) : bool :=
  (is_hex c || ((65 <=? code c) && (code c <=? 70)))%nat.
Definition lower (c : ascii) : ascii :=
  if ((65 <=? code c) && (code c <=? 90))%nat then ascii_of_nat (code c + 32) else c.

Fixpoint lstrip (l : list ascii) : list ascii :=
  match l with
  | c :: r => if is_space c then lstrip r else l
  | [] => []
  end.
Definition strip (s : string) : list ascii :=
  rev (lstrip (rev (lstrip (list_ascii_of_string s)))).

(** The longest prefix in a class, and what follows it. *)
Fixpoint span (p : ascii -> bool) (l : list ascii) : list ascii * list ascii :=
  match l with
  | c :: r => if p c then let '(a, b) := span p r in (c :: a, b) else ([], l)
  | [] => ([], [])
  end.
(** [class+] *)
Definition many1 (p : ascii -> bool) (l : list ascii)
  : option (list ascii * list ascii) :=
  match span p l with
  | ([], _) => None
  | r => Some r
  end.
(** A literal given in lower case, matched without regard to case. *)
Fixpoint literal_ci (lit l : list ascii) : option (list ascii) :=
  match lit, l with
  | [], _ => Some l
  | a :: lit', c :: r => if Ascii.eqb (lower c) a then literal_ci lit' r else None
  | _ :: _, [] => None
  end.

(** [int(s)] for a string of digits. *)
Definition int (digits : list ascii) : Z :=
  fold_left (fun acc c => 10 * acc + (Z.of_nat (code c) - 48)) digits 0.

(** [re.search(p, s)]: the leftmost position at which [p] matches. *)
Fixpoint search {A} (p : list ascii -> option A) (l : list ascii) : option A :=
  match p l with
  | Some x => Some x
  | None => match l with [] => None | _ :: r => search p r end
  end.

(** [^(?:connect\s+room)\s+(\d+)(?:\s+#(\d+))?(?:\s+!([a-f0-9]+))?$] with
    [re.IGNORECASE]: the groups (room number, hotel id, token). *)
Definition token_tail (l : list ascii) : option string :=
  match l with
  | "!"%char :: r =>
      match many1 is_hex_ci r with
      | Some (tok, []) => Some (string_of_list_ascii tok)
      | _ => None
      end
  | _ => None
  end.

(** [^(?:connect\s+room)\s+(\d+)]: the digits of the room number and what
    follows them. *)
Definition connect_room_head (text : list ascii) : option (list ascii * list ascii) :=
  l ← literal_ci (list_ascii_of_string "connect") text;
  '(_, l) ← many1 is_space l;
  l ← literal_ci (list_ascii_of_string "room") l;
  '(_, l) ← many1 is_space l;
  many1 is_digit l.

(** [(?:\s+#(\d+))?(?:\s+!([a-f0-9]+))?$] *)
Definition connect_room_tail (l : list ascii) : option (option string * option string) :=
  match l with
  | [] => Some (None, None)
  | _ =>
      '(_, l) ← many1 is_space l;
      match l with
      | "#"%char :: r =>
          ('(hid, l) ← many1 is_digit r;
           let hid := string_of_list_ascii hid in
           match l with
           | [] => Some (Some hid, None)
           | _ =>
               ('(_, l) ← many1 is_space l;
                tok ← token_tail l;
                Some (Some hid, Some tok))
           end)
      | _ => (tok ← token_tail l; Some (None, Some tok))
      end
  end.

Definition match_connect_room (text : list ascii)
  : option (string * option string * option string) :=
  '(room, l) ← connect_room_head text;
  '(hid, tok) ← connect_room_tail l;
  Some (string_of_list_ascii room, hid, tok).

(** [#(\d+)\s+!([a-f0-9]+)\s*$], at the head of [l]. *)
Definition hotel_and_token_here (l : list ascii) : option (Z * string) :=
  match l with
  | "#"%char :: r =>
      ('(hid, l) ← many1 is_digit r;
       '(_, l) ← many1 is_space l;
       match l with
       | "!"%char :: r =>
           ('(tok, l) ← many1 is_hex r;
            if forallb is_space l then Some (int hid, string_of_list_ascii tok)
            else None)
       | _ => None
       end)
  | _ => None
  end.

(** [#(\d+)\s*$], at the head of [l]. *)
Definition hotel_here (l : list ascii) : option Z :=
  match l with
  | "#"%char :: r =>
      ('(hid, l) ← many1 is_digit r;
       if forallb is_space l then Some (int hid) else None)
  | _ => None
  end.

(** [text.isdigit() and 1 <= len(text) <= 4] *)
Definition short_number (text : list ascii) : bool :=
  forallb is_digit text && (1 <=? List.length text)%nat && (List.length text <=? 4)%nat.

End Text.

(** An outbound message handed to the transport. *)
Inductive Outbound :=
| SendText (to body : string)
| SendInteractive (to body : string).

(* ===================================================================== *)
(** * Shared-endpoint webhook ([app/api/routes_webhook_whatsapp.py]) *)
(* ===================================================================== *)

Module RoutesWebhookWhatsapp.

Inductive Verdict :=
| Ignored
| InvalidToken
| MissingToken
| SentScanQr
| Forward (hid : Z).  (* receive_whatsapp_webhook(hotel_id, payload, db, request) *)

Definition find_hotel (db : Store) (hid : Z) : option Hotel :=
  first (filter (λ h, hotel_id h = hid) (hotels db)).

(** [receive_whatsapp_webhook_default] up to the hand-over to
    [receive_whatsapp_webhook]; it only reads the store. [wa_id] and [text]
    are the fields of the parsed payload. *)
Definition receive_whatsapp_webhook_default (db : Store) (wa_id : string)
    (text : string) : Verdict * list Outbound :=
  if negb (truthy wa_id) then (Ignored, [])
  else
    (* 1. Try to extract #hotel_id and !token from message text *)
    let '(hid, qr_token) :=
      if truthy text then
        let stripped := Text.strip text in
        match Text.search Text.hotel_and_token_here stripped with
        | Some (h, tok) => (Some h, Some tok)
        | None =>
            match Text.search Text.hotel_here stripped with
            | Some h => (Some h, None)
            | None => (None, None)
            end
        end
      else (None, None) in
    (* 1b. Validate QR token if hotel_id was extracted from message *)
    let rejected :=
      if truthy_int hid then
        match find_hotel db (default 0 hid) with
        | Some hotel =>
            match qr_token with
            | Some tok =>
                if decide (qr_tokens hotel !! tok = None)
                then Some (InvalidToken,
                           [SendText wa_id
                              "This QR code is not valid. Please scan the QR code in your room."])
                else None
            | None =>
                if decide (qr_tokens hotel ≠ ∅)
                then Some (MissingToken,
                           [SendText wa_id
                              "Please scan the QR code in your room to connect."])
                else None
            end
        | None => None
        end
      else None in
    match rejected with
    | Some r => r
    | None =>
        (* 2. If no #hotel_id, try to find existing conversation by wa_id *)
        let hid :=
          if truthy_int hid then hid
          else
            let variant_hashes :=
              List.map Sha256.hexdigest (IdentityResolver.phone_variants wa_id) in
            let existing_conv :=
              first (order_by_desc (fun cg => conv_updated_at cg.1)
                (filter (λ cg, conv_channel cg.1 = "whatsapp"
                               ∧ conv_status cg.1 = ConversationStatus.OPEN
                               ∧ phone_hash cg.2 ∈ variant_hashes)
                   (c ← conversations db;
                    g ← filter (λ g, conv_guest_id c = guest_id g) (guests db);
                    [(c, g)]))) in
            match existing_conv with
            | Some (c, _) => Some (conv_hotel_id c)
            | None => hid
            end in
        (* 3. If still no hotel_id, send "scan QR" message and ignore *)
        if negb (truthy_int hid)
        then (SentScanQr,
              [SendText wa_id
                 "Please scan the QR code in your room to connect with the hotel."])
        else (Forward (default 0 hid), [])
    end.

End RoutesWebhookWhatsapp.

(* ===================================================================== *)
(** * WhatsApp room linking ([app/workers/jobs.py]) *)
(* ===================================================================== *)

Module Jobs.

Definition SESSION_EXPIRED_MESSAGES_en : string :=
  "Chat session expired for security reasons. Please scan the room QR code again to continue.".

(** [welcome_message] stands for [_get_welcome_message(hotel, room_number)],
    [interactive_ok] for the result of [send_interactive_message]. *)
Record World := mkWorld {
  welcome_message : Hotel -> string -> string;
  interactive_ok : bool;
}.

(** [Handled b] is [return b]; [DbError] is the [IntegrityError] of an
    insert that breaks a foreign key, which the handler does not catch. *)
Inductive Result := Handled (b : bool) | DbError.

Definition hotel_lang (h : Hotel) : string := JobsJourney.hotel_lang h.

Definition _handle_whatsapp_room_linking (w : World) (db : Store)
    (conversation : Conversation) (message_text : string) (wa_id : string)
    (now : datetime) : Result * Store * list Outbound :=
  match RoutesWebhookWhatsapp.find_hotel db (conv_hotel_id conversation) with
  | None => (Handled false, db, [])
  | Some hotel =>
      (* Only for BASIC/FREE tier *)
      if bool_decide (subscription_tier hotel = "pro") then (Handled false, db, [])
      else
        let text := Text.strip message_text in
        let '(number, extracted_hotel_id, extracted_token, is_qr_scan) :=
          match Text.match_connect_room text with
          | Some (room, hid, tok) => (Some room, hid, tok, true)
          | None =>
              if Text.short_number text
              then (Some (string_of_list_ascii text), None, None, false)
              else (None, None, None, false)
          end in
        match number with
        | None =>
            (* No room linked: tell guest to scan QR *)
            if negb (truthy_int (conv_room_id conversation)) then
              (Handled true, db,
               SendText wa_id SESSION_EXPIRED_MESSAGES_en ::
               (if bilingual_welcome hotel && negb (bool_decide (hotel_lang hotel = "en"))
                then [SendText wa_id SESSION_EXPIRED_MESSAGES_en] else []))
            else (Handled false, db, [])
        | Some number =>
            (* Security: plain typed numbers cannot change room *)
            if negb is_qr_scan && truthy_int (conv_room_id conversation)
            then (Handled false, db, [])
            else
              (* Validate QR token if hotel has tokens configured *)
              if is_qr_scan && truthy number
                 && bool_decide (qr_tokens hotel ≠ ∅)
                 && (negb (truthy_opt extracted_token)
                     || bool_decide (qr_tokens hotel !! default "" extracted_token = None))
              then
                (Handled true, db,
                 [SendText wa_id
                    "This QR code is not valid. Please scan the QR code in your room."])
              else if negb (truthy number) then (Handled false, db, [])
              else
                (* multi-tenant routing: hotel id from the QR code if present *)
                let target_hotel_id :=
                  if truthy_opt extracted_hotel_id
                  then Text.int (list_ascii_of_string (default "" extracted_hotel_id))
                  else conv_hotel_id conversation in
                (* Find or create room *)
                let found :=
                  first (filter (λ r, room_hotel_id r = target_hotel_id
                                      ∧ room_number r = number) (rooms db)) in
                let created :=
                  match found with
                  | Some room => Some (room, db)
                  | None =>
                      match RoutesWebhookWhatsapp.find_hotel db target_hotel_id with
                      | None => None
                      | Some _ =>
                          let room := mkRoom (next_id room_id (rooms db))
                                             target_hotel_id number in
                          Some (room, set_rooms db (rooms db ++ [room]))
                      end
                  end in
                match created with
                | None => (DbError, db, [])
                | Some (room, db) =>
                    let db := set_conversations db
                      (List.map (fun c =>
                         if decide (conv_id c = conv_id conversation)
                         then mkConversation (conv_id c) (conv_hotel_id c)
                                (conv_guest_id c) (conv_stay_id c) (Some (room_id room))
                                (conv_channel c) (conv_status c) (current_handler c)
                                (Some now) (conv_created_at c) now
                         else c) (conversations db)) in
                    let welcome := welcome_message w hotel number in
                    (Handled true, db,
                     SendInteractive wa_id welcome ::
                     (if interactive_ok w then [] else [SendText wa_id welcome]))
                end
        end
  end.

End Jobs.

(* ===================================================================== *)
(** * Specification-side predicates *)
(* ===================================================================== *)

Module Spec.

(** A guest, in any tenant, whose hash matches one of the variant hashes and
    who has an IN_HOUSE stay. *)
Definition in_house_match (db : Store) (hashes : list string)
    (g : Guest) (h : Hotel) (s : Stay) : Prop :=
  g ∈ guests db ∧ h ∈ hotels db ∧ s ∈ stays db
  ∧ guest_hotel_id g = hotel_id h ∧ stay_guest_id s = guest_id g
  ∧ phone_hash g ∈ hashes ∧ stay_status s = StayStatus.IN_HOUSE.


(** "At most one IN_HOUSE stay per guest; at most one IN_HOUSE stay per
    room." *)
Definition in_house_of_guest (gid : Z) (l : list Stay) : list Stay :=
  filter (λ s, stay_guest_id s = gid ∧ stay_status s = StayStatus.IN_HOUSE) l.
Definition in_house_in_room (rid : Z) (l : list Stay) : list Stay :=
  filter (λ s, stay_room_id s = Some rid ∧ stay_status s = StayStatus.IN_HOUSE) l.
Definition one_in_house_per_guest (db : Store) : Prop :=
  ∀ gid, (List.length (in_house_of_guest gid (stays db)) ≤ 1)%nat.
Definition one_in_house_per_room (db : Store) : Prop :=
  ∀ rid, (List.length (in_house_in_room rid (stays db)) ≤ 1)%nat.

(** "The stay must still be IN_HOUSE and the guest must not have opted out;
    otherwise CANCELLED", for the stay's derived state. *)
Definition not_in_house_is_cancelled : Prop :=
  ∀ w db now e stay,
    e ∈ journey_events db →
    event_status e = JourneyEventStatus.PENDING →
    run_at e <= now →
    JobsJourney.event_stay db e = Some stay →
    IdentityResolver.determine_state (Some (IdentityResolver.stay_object stay))
      (JobsJourney.clock w (event_id e)) ≠ StayStatus.IN_HOUSE →
    ∀ x, x ∈ journey_events (JobsJourney.process_pending_journeys w db now).1 →
         event_id x = event_id e →
         event_status x = JourneyEventStatus.CANCELLED.


End Spec.

(* ===================================================================== *)
(** * Auxiliary definitions for the proofs *)
(* ===================================================================== *)

Module ResolveSteps.
Import IdentityResolver.


End ResolveSteps.

Module CheckinSteps.
Import SyncEngine.

(** The parts of [_handle_checkin], named (statistics left out). *)

(** Steps 1 to 4: guest, contact details, language, room. *)
Definition prelude (db : Store) (hid : Z) (reservation : PMSReservation)
  : Guest * option Z * Store :=
  let '(guest, db) := _get_or_create_guest db hid (guest_phone reservation) in
  let db := _upsert_guest_pii db guest (guest_name reservation)
              (guest_phone reservation) (guest_email reservation) in
  let db :=
    if truthy_opt (res_preferred_language reservation)
       && negb (truthy_opt (preferred_language guest))
    then set_guests db
           (List.map (fun g =>
              if decide (guest_id g = guest_id guest)
              then mkGuest (guest_id g) (guest_hotel_id g) (phone_hash g)
                           (res_preferred_language reservation)
              else g) (guests db))
    else db in
  let '(rid, db) := _get_or_create_room db hid (res_room_number reservation) in
  (guest, rid, db).

(** Step 5, the row update of the existing stay. *)
Definition update_existing (rid : option Z) (reservation : PMSReservation)
    (s : Stay) : Stay :=
  mkStay (stay_id s) (stay_hotel_id s) (stay_guest_id s) rid
         (res_checkin_date reservation) (res_checkout_date reservation)
         (if decide (stay_status s ≠ StayStatus.IN_HOUSE)
          then StayStatus.IN_HOUSE else stay_status s)
         (whatsapp_opt_in s) (stay_channel s) (pms_reservation_id s).

Definition new_stay (db : Store) (hid gid : Z) (rid : option Z)
    (reservation : PMSReservation) : Stay :=
  mkStay (next_id stay_id (stays db)) hid gid rid
         (res_checkin_date reservation) (res_checkout_date reservation)
         StayStatus.IN_HOUSE true (Some "pms") (Some (reservation_id reservation)).

(** Step 8, the welcome event for a stay just created. *)
Definition schedule_welcome (db : Store) (hid gid sid : Z) (now : datetime) : Store :=
  match welcome_journey db hid with
  | Some journey =>
      match existing_event db sid (journey_id journey) with
      | None =>
          set_journey_events db
            (journey_events db ++
             [mkJourneyEvent (next_id event_id (journey_events db)) hid
                (journey_id journey) gid sid "whatsapp"
                (now + timedelta_minutes (delay_minutes journey))
                JourneyEventStatus.PENDING])
      | Some _ => db
      end
  | None => db
  end.

(** Steps 6 to 8. *)
Definition create_path (db : Store) (hid gid : Z) (rid : option Z)
    (reservation : PMSReservation) (now : datetime) : Store :=
  let db := (_close_previous_stays db gid rid).2 in
  let stay := new_stay db hid gid rid reservation in
  let db := set_stays db (stays db ++ [stay]) in
  schedule_welcome db hid gid (stay_id stay) now.

Definition checkin (db : Store) (hid : Z) (reservation : PMSReservation)
    (now : datetime) : Store :=
  let '(guest, rid, db) := prelude db hid reservation in
  match find_existing_stay db hid (guest_id guest) (reservation_id reservation) with
  | Some existing_stay =>
      set_stays db (update_stays [stay_id existing_stay]
                      (update_existing rid reservation) (stays db))
  | None => create_path db hid (guest_id guest) rid reservation now
  end.

(** A row update that at most sets the status to POST_STAY. *)
Definition closing (c : Stay → Stay) : Prop :=
  ∀ s, c s = s ∨ c s = set_stay_status StayStatus.POST_STAY s.

End CheckinSteps.

Module JourneySteps.
Import JobsJourney.

(** The tables a scheduler cycle never writes. *)
Definition same_core (db db' : Store) : Prop :=
  hotels db' = hotels db ∧ guests db' = guests db ∧ guest_piis db' = guest_piis db
  ∧ rooms db' = rooms db ∧ stays db' = stays db ∧ journeys db' = journeys db.

(** The journey events are as before, up to the status of the rows with one
    id. *)
Definition events_updated_for (eid : Z) (db db' : Store) : Prop :=
  journey_events db' = journey_events db
  ∨ ∃ st, journey_events db' = journey_events (set_event_status db eid st).

(** Every row with this id is CANCELLED. *)
Definition cancelled (eid : Z) (db : Store) : Prop :=
  ∀ x, x ∈ journey_events db → event_id x = eid →
       event_status x = JourneyEventStatus.CANCELLED.

(** The status of the rows with an id, as a list. *)
Definition statuses_of (eid : Z) (db : Store) : list JourneyEventStatus.t :=
  List.map event_status (filter (λ x, event_id x = eid) (journey_events db)).

(** The row update of the staleness pass. *)
Definition cancel_row (ids : list Z) (x : JourneyEvent) : JourneyEvent :=
  if decide (event_id x ∈ ids)
  then mkJourneyEvent (event_id x) (event_hotel_id x) (event_journey_id x)
                      (event_guest_id x) (event_stay_id x) (event_channel x)
                      (run_at x) JourneyEventStatus.CANCELLED
  else x.

End JourneySteps.

(* ===================================================================== *)
(** * Concrete stores *)
(* ===================================================================== *)

Module Examples.

Definition settings : IdentityResolver.Settings := IdentityResolver.mkSettings 1.

Definition hotel1 : Hotel := mkHotel 1 "Central" true "free" None "en" None false ∅.
Definition hotel2 : Hotel :=
  mkHotel 2 "Seaside" true "free" None "en" None false
          {[ "a7b3c" := mkQrToken "101" 0 ]}.
Definition hotel3 : Hotel := mkHotel 3 "Alpine" true "pro" None "en" None false ∅.

Definition empty_store : Store := mkStore [] [] [] [] [] [] [] [] [] [].

(** Three tenants, nothing else. *)
Definition store_hotels : Store :=
  mkStore [hotel1; hotel2; hotel3] [] [] [] [] [] [] [] [] [].

(** One phone number known to two tenants, in house in both; the stay in
    tenant 3 started later. *)
Definition shared_guest2 : Guest := mkGuest 1 2 (Sha256.hexdigest "40721000111") None.
Definition shared_guest3 : Guest := mkGuest 2 3 (Sha256.hexdigest "40721000111") None.
Definition shared_stay2 : Stay :=
  mkStay 1 2 1 None 100 900 StayStatus.IN_HOUSE true (Some "pms") (Some "R-2").
Definition shared_stay3 : Stay :=
  mkStay 2 3 2 None 200 900 StayStatus.IN_HOUSE true (Some "pms") (Some "R-3").
Definition store_shared_phone : Store :=
  mkStore [hotel1; hotel2; hotel3] [shared_guest2; shared_guest3] [] []
          [shared_stay2; shared_stay3] [] [] [] [] [].

(** A tenant with an active welcome journey, and reservations of the PMS. *)
Definition welcome : Journey :=
  mkJourney 1 1 "AFTER_CHECKIN_WELCOME" 20 true "welcome_after_checkin".
Definition store_with_welcome : Store :=
  mkStore [hotel1; hotel2; hotel3] [] [] [] [] [] [] [welcome] [] [].

Definition reservation_ana : SyncEngine.PMSReservation :=
  SyncEngine.mkPMSReservation "R-1" "Ana" "+40 721 000 111" None (Some "101")
    ReservationState.IN_HOUSE 100 900 None.
(** Another reservation on the same room. *)
Definition reservation_bob : SyncEngine.PMSReservation :=
  SyncEngine.mkPMSReservation "R-2" "Bob" "+40 721 000 222" None (Some "101")
    ReservationState.IN_HOUSE 150 950 None.

(** The store after one sync pass over both reservations. *)
Definition store_ana_bob : Store :=
  (fold_left (SyncEngine.process_reservation 1 0) [reservation_ana; reservation_bob]
     (store_with_welcome, SyncEngine.SyncStats_init)).1.

(** A guest with a welcome event due now; the scheduler runs at 1000. *)
Definition ana : Guest := mkGuest 1 1 (Sha256.hexdigest "40721000111") None.
Definition ana_pii : GuestPII := mkGuestPII 1 (Some "Ana") (Some "40721000111") None.
Definition room101 : Room := mkRoom 1 1 "101".
Definition welcome_event (run_at : datetime) : JourneyEvent :=
  mkJourneyEvent 1 1 1 1 1 "whatsapp" run_at JourneyEventStatus.PENDING.
Definition stay_of_ana (checkout : datetime) (opt_in : bool) : Stay :=
  mkStay 1 1 1 (Some 1) 100 checkout StayStatus.IN_HOUSE opt_in (Some "pms")
         (Some "R-1").
Definition journey_store (checkout : datetime) (opt_in : bool) (run_at : datetime)
  : Store :=
  mkStore [hotel1] [ana] [ana_pii] [room101] [stay_of_ana checkout opt_in] [] []
          [welcome] [welcome_event run_at] [].
(** Every send succeeds; the clock reads 1000. *)
Definition world : JobsJourney.World :=
  JobsJourney.mkWorld (fun _ => 1000) (fun _ _ => "Welcome!") (fun _ => false)
    (fun _ => JobsJourney.SendOk) (fun _ => false).

(** A conversation of tenant 1 (no room codes registered) with no room
    linked yet. *)
Definition conversation1 : Conversation :=
  mkConversation 1 1 1 None None "whatsapp" ConversationStatus.OPEN "BOT" None 0 0.
Definition store_conversation : Store :=
  mkStore [hotel1; hotel2; hotel3] [ana] [ana_pii] [] [] [conversation1] [] [] [] [].
(** The guest before any contact detail was recorded. *)
Definition store_first_contact : Store :=
  mkStore [hotel1; hotel2; hotel3] [ana] [] [] [] [] [] [] [] [].
Definition jobs_world : Jobs.World :=
  Jobs.mkWorld (fun h room => String.append "Welcome to room " room) true.

End Examples.

(* ===================================================================== *)
(** * Properties *)
(* ===================================================================== *)

(** ** SHA-256 test vectors (FIPS 180-4) *)

Example sha256_round_constants :
  List.map (fun i => List.nth i Sha256.K 0) [0; 1; 63]%nat
  = [0x428a2f98; 0x71374491; 0xc67178f2]
  ∧ List.map (fun i => List.nth i Sha256.H0 0) [0; 7]%nat = [0x6a09e667; 0x5be0cd19].
Proof. vm_compute. split; reflexivity. Qed.

Example sha256_abc :
  Sha256.hexdigest "abc"
  = "ba7816bf8f01cfea414140de5dae2223b00361a396177a9cb410ff61f20015ad".
Proof. vm_compute. reflexivity. Qed.

Example sha256_empty :
  Sha256.hexdigest ""
  = "e3b0c44298fc1c149afbf4c8996fb92427ae41e4649b934ca495991b7852b855".
Proof. vm_compute. reflexivity. Qed.

Example sha256_two_blocks :
  Sha256.hexdigest "abcdbcdecdefdefgefghfghighijhijkijkljklmklmnlmnomnopnopq"
  = "248d6a61d20638b8e5c026930c3e6039a33ce45964ff2167f6ecedd419db06c1".
Proof. vm_compute. reflexivity. Qed.


(* ===================================================================== *)
(** ** Queries: [first], [filter], [order_by] *)
(* ===================================================================== *)

Section Queries.
Context {A : Type}.

Lemma first_Some_elem (l : list A) (x : A) : first l = Some x → x ∈ l.
Proof. destruct l; cbn; intros [= ->]. left. Qed.

Lemma first_None_nil (l : list A) : first l = None → l = [].
Proof. now destruct l. Qed.

Lemma first_app_nil (l1 l2 : list A) : l1 = [] → first (l1 ++ l2) = first l2.
Proof. now intros ->. Qed.

Lemma first_app_Some (l1 l2 : list A) (x : A) :
  first l1 = Some x → first (l1 ++ l2) = Some x.
Proof. destruct l1; cbn; congruence. Qed.

Lemma first_map {B} (f : A → B) (l : list A) : first (List.map f l) = f <$> first l.
Proof. now destruct l. Qed.

Lemma first_filter_Some (P : A → Prop) `{∀ x, Decision (P x)} (l : list A) (x : A) :
  first (filter P l) = Some x → P x ∧ x ∈ l.
Proof. intros Hf. apply first_Some_elem in Hf. now apply list_elem_of_filter in Hf. Qed.

Lemma first_filter_None (P : A → Prop) `{∀ x, Decision (P x)} (l : list A) :
  first (filter P l) = None → ∀ x, x ∈ l → ¬ P x.
Proof.
  intros Hf x Hx HP. apply first_None_nil in Hf.
  eapply filter_nil_not_elem_of; eauto.
Qed.

Lemma first_filter_is_Some (P : A → Prop) `{∀ x, Decision (P x)} (l : list A) (x : A) :
  x ∈ l → P x → is_Some (first (filter P l)).
Proof.
  intros Hx HP. destruct (first (filter P l)) eqn:E; [eauto|].
  exfalso. eapply first_filter_None; eauto.
Qed.

(** A row update that keeps what the filter looks at commutes with it. *)
Lemma filter_map_stable (P : A → Prop) `{∀ x, Decision (P x)} (f : A → A) (l : list A) :
  (∀ x, P (f x) ↔ P x) → filter P (List.map f l) = List.map f (filter P l).
Proof.
  intros Hf. induction l as [|a l IH]; [reflexivity|]. cbn [List.map].
  rewrite !filter_cons. destruct (decide (P (f a))) as [H1|H1], (decide (P a)) as [H2|H2];
    cbn [List.map]; rewrite ?IH; try reflexivity; destruct (Hf a); tauto.
Qed.

Lemma filter_ext_in (P Q : A → Prop) `{∀ x, Decision (P x)} `{∀ x, Decision (Q x)}
    (l : list A) :
  (∀ x, x ∈ l → (P x ↔ Q x)) → filter P l = filter Q l.
Proof.
  induction l as [|a l IH]; intros Hl; [reflexivity|].
  rewrite !filter_cons.
  assert (P a ↔ Q a) as Ha by (apply Hl; left).
  rewrite IH by (intros x Hx; apply Hl; now right).
  destruct (decide (P a)), (decide (Q a)); try reflexivity; tauto.
Qed.

Lemma map_id_in (f : A → A) (l : list A) :
  (∀ x, x ∈ l → f x = x) → List.map f l = l.
Proof.
  induction l as [|a l IH]; intros Hl; [reflexivity|]. cbn.
  rewrite Hl by left. rewrite IH; [reflexivity|]. intros x Hx. apply Hl. now right.
Qed.

Variable key : A → Z.

Lemma insert_desc_perm (x : A) (l : list A) : insert_desc key x l ≡ₚ x :: l.
Proof.
  induction l as [|y r IH]; cbn; [reflexivity|].
  destruct (key y <=? key x); [reflexivity|].
  rewrite IH. apply Permutation_swap.
Qed.

Lemma order_by_desc_perm (l : list A) : order_by_desc key l ≡ₚ l.
Proof.
  induction l as [|x l IH]; cbn; [reflexivity|].
  rewrite insert_desc_perm. now rewrite IH.
Qed.

Lemma order_by_desc_elem (l : list A) (x : A) : x ∈ order_by_desc key l ↔ x ∈ l.
Proof. now rewrite order_by_desc_perm. Qed.

Lemma insert_desc_sorted (x : A) (l : list A) :
  sorted_desc key l → sorted_desc key (insert_desc key x l).
Proof.
  unfold sorted_desc. induction 1 as [|y r Hr IH Hy]; cbn.
  - repeat constructor.
  - destruct (key y <=? key x) eqn:E.
    + apply Z.leb_le in E. constructor; [now constructor|].
      constructor; [assumption|].
      eapply Forall_impl; [exact Hy|]. cbn. intros; lia.
    + apply Z.leb_gt in E. constructor; [assumption|].
      rewrite insert_desc_perm. constructor; [lia|assumption].
Qed.

Lemma order_by_desc_sorted (l : list A) : sorted_desc key (order_by_desc key l).
Proof.
  induction l as [|x l IH]; cbn; [constructor|]. now apply insert_desc_sorted.
Qed.

(** The head of [order_by(key.desc())] is a row of the query with the
    largest key. *)
Lemma order_by_desc_first (l : list A) (x : A) :
  first (order_by_desc key l) = Some x →
  x ∈ l ∧ ∀ y, y ∈ l → key y <= key x.
Proof.
  intros Hx. split.
  - apply order_by_desc_elem. now apply first_Some_elem.
  - intros y Hy. apply order_by_desc_elem in Hy.
    pose proof (order_by_desc_sorted l) as Hs.
    destruct (order_by_desc key l) as [|h r]; [discriminate|].
    cbn in Hx. injection Hx as ->.
    apply StronglySorted_inv in Hs as [_ Hall].
    apply elem_of_cons in Hy as [->|Hy]; [lia|].
    rewrite Forall_forall in Hall. now apply Hall.
Qed.

Lemma order_by_desc_nil (l : list A) : order_by_desc key l = [] → l = [].
Proof.
  intros H. apply Permutation_nil. now rewrite <- (order_by_desc_perm l), H.
Qed.

End Queries.

(* ===================================================================== *)
(** ** Identity resolver *)
(* ===================================================================== *)

Section DetermineState.
Import IdentityResolver.

(** C10. [determine_state] is total over optional stays: no stay gives
    POST_STAY; with both dates present the state depends on the clock alone
    (PRE_STAY before check-in, IN_HOUSE from check-in up to but excluding
    check-out, POST_STAY otherwise); with a date missing it is the stored
    status, and POST_STAY when that is missing too. *)
Theorem determine_state_total (now : datetime) :
  determine_state None now = StayStatus.POST_STAY
  ∧ (∀ checkin checkout status,
       let stay := Some (mkStayObject (Some checkin) (Some checkout) status) in
       (now < checkin → determine_state stay now = StayStatus.PRE_STAY)
       ∧ (checkin <= now < checkout → determine_state stay now = StayStatus.IN_HOUSE)
       ∧ (checkin <= now → checkout <= now →
          determine_state stay now = StayStatus.POST_STAY))
  ∧ (∀ stay,
       obj_checkin_date stay = None ∨ obj_checkout_date stay = None →
       determine_state (Some stay) now = default StayStatus.POST_STAY (obj_status stay)).
Proof.
  split; [reflexivity|split].
  - intros checkin checkout status stay. unfold stay, determine_state. cbn.
    split; [|split].
    + intros H. apply Z.ltb_lt in H. now rewrite H.
    + intros [H1 H2].
      rewrite (proj2 (Z.ltb_ge now checkin)) by lia.
      rewrite (proj2 (Z.leb_le checkin now)) by lia.
      rewrite (proj2 (Z.ltb_lt now checkout)) by lia.
      reflexivity.
    + intros H1 H2.
      rewrite (proj2 (Z.ltb_ge now checkin)) by lia.
      rewrite (proj2 (Z.ltb_ge now checkout)) by lia.
      now rewrite andb_false_r.
  - intros [ci co st] [H|H]; cbn in H; subst; unfold determine_state; cbn.
    + now destruct st.
    + now destruct ci, st.
Qed.

Lemma determine_state_total_witness :
  IdentityResolver.determine_state
    (Some (mkStayObject (Some 10) (Some 20) None)) 5 = StayStatus.PRE_STAY
  ∧ IdentityResolver.determine_state
      (Some (mkStayObject (Some 10) (Some 20) (Some StayStatus.CANCELLED))) 10
    = StayStatus.IN_HOUSE
  ∧ IdentityResolver.determine_state
      (Some (mkStayObject (Some 10) (Some 20) (Some StayStatus.IN_HOUSE))) 20
    = StayStatus.POST_STAY
  ∧ IdentityResolver.determine_state
      (Some (mkStayObject None (Some 20) (Some StayStatus.CANCELLED))) 5
    = StayStatus.CANCELLED.
Proof.
  pose proof (determine_state_total 5) as (_ & H5 & _).
  pose proof (determine_state_total 10) as (_ & H10 & _).
  pose proof (determine_state_total 20) as (_ & H20 & _).
  pose proof (determine_state_total 5) as (_ & _ & Hm).
  split; [|split; [|split]].
  - apply (H5 10 20 None). lia.
  - apply (H10 10 20 (Some StayStatus.CANCELLED)). lia.
  - apply (H20 10 20 (Some StayStatus.IN_HOUSE)); lia.
  - apply (Hm (mkStayObject None (Some 20) (Some StayStatus.CANCELLED))). now left.
Defined.

End DetermineState.

Section PhoneVariants.
Import IdentityResolver.

Lemma phone_variants_truthy (raw v : string) :
  In v (phone_variants raw) → truthy v = true.
Proof.
  unfold phone_variants. destruct (negb (truthy (only_digits raw))); [intros []|].
  intros Hv. now apply List.filter_In in Hv.
Qed.

Lemma canonical_phone_variant (raw c : string) :
  canonical_phone raw = Some c → c ∈ phone_variants raw ∧ truthy c = true.
Proof.
  unfold canonical_phone. destruct (phone_variants raw) as [|v vs] eqn:E; [discriminate|].
  intros Hc. apply order_by_desc_first in Hc as [Hc _].
  split; [assumption|]. apply (phone_variants_truthy raw). rewrite E.
  now apply list_elem_of_In.
Qed.


End PhoneVariants.

Section GuestPII.
Import IdentityResolver SyncEngine.

Lemma guest_pii_set_map (db : Store) (guest : Guest) (f : GuestPII → GuestPII) :
  (∀ p, pii_guest_id (f p) = pii_guest_id p) →
  guest_pii (set_guest_piis db (List.map f (guest_piis db))) guest
  = f <$> guest_pii db guest.
Proof.
  intros Hf. unfold guest_pii. cbn.
  rewrite filter_map_stable by (intros p; now rewrite Hf).
  apply first_map.
Qed.

Lemma guest_pii_set_app (db : Store) (guest : Guest) (p : GuestPII) :
  guest_pii db guest = None → pii_guest_id p = guest_id guest →
  guest_pii (set_guest_piis db (guest_piis db ++ [p])) guest = Some p.
Proof.
  unfold guest_pii. cbn. intros Hn Hp. apply first_None_nil in Hn.
  rewrite filter_app, Hn. cbn [app]. now rewrite filter_cons_True.
Qed.

Lemma guest_pii_key (db : Store) (guest : Guest) (p : GuestPII) :
  guest_pii db guest = Some p → pii_guest_id p = guest_id guest.
Proof. intros H. now apply first_filter_Some in H. Qed.

(** Once the phone field is populated, the channel path leaves the store
    as it is. *)
Lemma ensure_guest_pii_populated (db : Store) (guest : Guest) (pii : GuestPII)
    (phone : string) :
  guest_pii db guest = Some pii → truthy_opt (phone_plain pii) = true →
  _ensure_guest_pii db guest phone = db.
Proof.
  intros Hp Ht. unfold _ensure_guest_pii.
  destruct (negb (truthy phone)); [reflexivity|].
  destruct (canonical_phone phone); [|reflexivity].
  now rewrite Hp, Ht.
Qed.

(** A call of the channel path that writes leaves the phone populated. *)
Lemma ensure_guest_pii_writes (db : Store) (guest : Guest) (phone : string) :
  _ensure_guest_pii db guest phone ≠ db →
  ∃ pii c, canonical_phone phone = Some c
           ∧ guest_pii (_ensure_guest_pii db guest phone) guest = Some pii
           ∧ phone_plain pii = Some c.
Proof.
  unfold _ensure_guest_pii.
  destruct (negb (truthy phone)); [congruence|].
  destruct (canonical_phone phone) as [c|] eqn:Ec; [|congruence].
  destruct (guest_pii db guest) as [pii|] eqn:Ep.
  - destruct (truthy_opt (phone_plain pii)); [congruence|]. intros _.
    eexists _, c. split; [reflexivity|].
    rewrite guest_pii_set_map by (intros p; now destruct (decide _)).
    rewrite Ep. cbn. rewrite decide_True by (eapply guest_pii_key; eauto).
    split; reflexivity.
  - intros _. eexists _, c. split; [reflexivity|].
    rewrite guest_pii_set_app by (assumption || reflexivity). split; reflexivity.
Qed.

(** C9. The channel first-contact path never overwrites a populated phone
    field and populates the contact-detail record at most once (after a call
    that wrote, every later call leaves the store unchanged); the PMS path
    overwrites name and phone with the reservation data on every sync. *)
Theorem pii_channel_once_pms_overwrites (db : Store) (guest : Guest) :
  (∀ pii phone,
     guest_pii db guest = Some pii → truthy_opt (phone_plain pii) = true →
     _ensure_guest_pii db guest phone = db)
  ∧ (∀ phone phone',
       _ensure_guest_pii db guest phone ≠ db →
       _ensure_guest_pii (_ensure_guest_pii db guest phone) guest phone'
       = _ensure_guest_pii db guest phone)
  ∧ (∀ name phone email,
       ∃ pii, guest_pii (_upsert_guest_pii db guest name phone email) guest = Some pii
              ∧ full_name pii = Some name ∧ phone_plain pii = Some phone).
Proof.
  split; [|split].
  - intros pii phone. apply ensure_guest_pii_populated.
  - intros phone phone' Hw.
    destruct (ensure_guest_pii_writes db guest phone Hw) as (pii & c & Hc & Hp & Hph).
    eapply ensure_guest_pii_populated; [exact Hp|].
    rewrite Hph. cbn. now apply canonical_phone_variant in Hc.
  - intros name phone email. unfold _upsert_guest_pii.
    destruct (guest_pii db guest) as [pii|] eqn:Ep.
    + eexists. rewrite guest_pii_set_map by (intros p; now destruct (decide _)).
      rewrite Ep. cbn. rewrite decide_True by (eapply guest_pii_key; eauto).
      repeat split.
    + eexists. rewrite guest_pii_set_app by (assumption || reflexivity).
      repeat split.
Qed.

Lemma pii_channel_once_pms_overwrites_witness :
  _ensure_guest_pii Examples.store_conversation Examples.ana "0721 000 999"
  = Examples.store_conversation
  ∧ _ensure_guest_pii
      (_ensure_guest_pii Examples.store_first_contact Examples.ana "+40 721 000 111")
      Examples.ana "0721 000 999"
    = _ensure_guest_pii Examples.store_first_contact Examples.ana "+40 721 000 111"
  ∧ ∃ pii,
      guest_pii (_upsert_guest_pii Examples.store_conversation Examples.ana
                   "Ana Pop" "+40 700 000 000" None) Examples.ana = Some pii
      ∧ full_name pii = Some "Ana Pop" ∧ phone_plain pii = Some "+40 700 000 000".
Proof.
  destruct (pii_channel_once_pms_overwrites Examples.store_conversation Examples.ana)
    as (Hkeep & _ & Hpms).
  destruct (pii_channel_once_pms_overwrites Examples.store_first_contact Examples.ana)
    as (_ & Honce & _).
  split_and!.
  - apply (Hkeep Examples.ana_pii); reflexivity.
  - apply Honce. intros H. apply (f_equal guest_piis) in H. vm_compute in H.
    discriminate.
  - apply Hpms.
Defined.

End GuestPII.

Section GlobalDiscovery.
Import IdentityResolver Spec.

Lemma guest_hotel_stay_elem (db : Store) (g : Guest) (h : Hotel) (s : Stay) :
  (g, h, s) ∈ guest_hotel_stay db
  ↔ g ∈ guests db ∧ h ∈ hotels db ∧ s ∈ stays db
    ∧ guest_hotel_id g = hotel_id h ∧ stay_guest_id s = guest_id g.
Proof.
  unfold guest_hotel_stay. rewrite list_elem_of_bind. split.
  - intros (g' & Hh & Hg). apply list_elem_of_bind in Hh as (h' & Hs & Hh).
    apply list_elem_of_bind in Hs as (s' & Hx & Hs).
    apply list_elem_of_singleton in Hx. injection Hx as -> -> ->.
    apply list_elem_of_filter in Hh as [? ?]. apply list_elem_of_filter in Hs as [? ?].
    tauto.
  - intros (Hg & Hh & Hs & E1 & E2). exists g. split; [|assumption].
    apply list_elem_of_bind. exists h. split; [|now apply list_elem_of_filter].
    apply list_elem_of_bind. exists s. split; [now left|now apply list_elem_of_filter].
Qed.

Lemma find_guest_globally_Some (db : Store) (hashes : list string) g h s :
  _find_guest_globally db hashes = Some (g, h, s) →
  in_house_match db hashes g h s
  ∧ ∀ g' h' s', in_house_match db hashes g' h' s' → checkin_date s' <= checkin_date s.
Proof.
  unfold _find_guest_globally. destruct hashes as [|x xs] eqn:E; [discriminate|].
  rewrite <- E. clear E. intros Hf. apply order_by_desc_first in Hf as [Hin Hmax].
  apply list_elem_of_filter in Hin as [[Hh Hst] Hin]. cbn in Hh, Hst.
  apply guest_hotel_stay_elem in Hin. split; [unfold in_house_match; tauto|].
  intros g' h' s' (?&?&?&?&?&?&?).
  apply (Hmax (g', h', s')). apply list_elem_of_filter. split; [now split|].
  apply guest_hotel_stay_elem. tauto.
Qed.

Lemma find_guest_globally_None (db : Store) (hashes : list string) :
  _find_guest_globally db hashes = None → ∀ g h s, ¬ in_house_match db hashes g h s.
Proof.
  unfold _find_guest_globally. intros Hf g h s (?&?&?&?&?&Hh&?).
  destruct hashes as [|x xs] eqn:E; [now apply elem_of_nil in Hh|].
  rewrite <- E in *. clear E.
  apply first_None_nil, order_by_desc_nil in Hf.
  eapply (filter_nil_not_elem_of _ _ (g, h, s)) in Hf; [|now split].
  apply Hf, guest_hotel_stay_elem. tauto.
Qed.

Lemma ensure_guest_pii_guests (db : Store) (guest : Guest) (phone : string) :
  guests (_ensure_guest_pii db guest phone) = guests db
  ∧ hotels (_ensure_guest_pii db guest phone) = hotels db
  ∧ stays (_ensure_guest_pii db guest phone) = stays db.
Proof.
  unfold _ensure_guest_pii. destruct (negb (truthy phone)); [tauto|].
  destruct (canonical_phone phone); [|tauto].
  destruct (guest_pii db guest) as [pii|]; [|cbn; tauto].
  destruct (truthy_opt (phone_plain pii)); cbn; tauto.
Qed.

Lemma insert_guest_spec (db : Store) (hid : Z) (hash_value : string) g db' :
  insert_guest db hid hash_value = (g, db') →
  guest_hotel_id g = hid ∧ phone_hash g = hash_value ∧ g ∈ guests db'
  ∧ hotels db' = hotels db ∧ stays db' = stays db
  ∧ (guests db' = guests db ∨ guests db' = guests db ++ [g]).
Proof.
  unfold insert_guest.
  destruct (first (filter _ (guests db))) as [g0|] eqn:E; intros [= <- <-].
  - apply first_filter_Some in E as [[? ?] ?]. tauto.
  - cbn. rewrite elem_of_app, list_elem_of_singleton. tauto.
Qed.

(** C4. Without a tenant hint, or with the default tenant, a guest of any
    tenant that matches a variant hash and has an IN_HOUSE stay is found
    first: the context returned is a matching (guest, tenant, stay) whose
    stay has the most recent check-in date, with that tenant adopted and the
    store untouched; only without such a match does resolution fall back to
    the default tenant, finding or creating the guest there. *)
Theorem global_discovery_most_recent_checkin (settings : Settings) (db : Store)
    (now : datetime) (wa_id : string) (hint : option Z) :
  hint = None ∨ hint = Some (default_hotel_id settings) →
  let hashes := List.map Sha256.hexdigest (phone_variants wa_id) in
  ((∃ g h s, in_house_match db hashes g h s) →
   ∃ g h s,
     resolve_identity settings db now wa_id hint
     = (Some (mkIdentityContext h g (Some s)
                (determine_state (Some (stay_object s)) now)), db)
     ∧ in_house_match db hashes g h s
     ∧ ∀ g' h' s', in_house_match db hashes g' h' s' →
                   checkin_date s' <= checkin_date s)
  ∧ ((∀ g h s, ¬ in_house_match db hashes g h s) →
     ∀ ctx db', resolve_identity settings db now wa_id hint = (Some ctx, db') →
       hotel_id (ctx_hotel ctx) = default_hotel_id settings
       ∧ guest_hotel_id (ctx_guest ctx) = default_hotel_id settings
       ∧ ctx_guest ctx ∈ guests db').
Proof.
  intros Hhint hashes.
  assert (match hint with None => true | Some h => h =? default_hotel_id settings end
          = true) as Hglobal.
  { destruct Hhint as [->| ->]; [reflexivity|apply Z.eqb_refl]. }
  assert ((if truthy_int hint then default 0 hint else default_hotel_id settings)
          = default_hotel_id settings) as Hhid.
  { destruct Hhint as [->| ->]; [reflexivity|]. cbn. now destruct (negb _). }
  split.
  - intros (g0 & h0 & s0 & Hm).
    destruct (_find_guest_globally db hashes) as [[[g h] s]|] eqn:Ef.
    + exists g, h, s. split; [|now apply find_guest_globally_Some].
      unfold resolve_identity. fold hashes. rewrite Hglobal, Ef. reflexivity.
    + exfalso. eapply find_guest_globally_None; eauto.
  - intros Hno ctx db'. unfold resolve_identity. fold hashes.
    rewrite Hglobal, Hhid.
    destruct (_find_guest_globally db hashes) as [[[g h] s]|] eqn:Ef.
    { exfalso. apply find_guest_globally_Some in Ef as [Hm _]. eapply Hno; eauto. }
    destruct (_ensure_hotel db (default_hotel_id settings)) as [hotel|] eqn:Eh;
      [|discriminate].
    apply first_filter_Some in Eh as [Eh _].
    destruct (match hashes with [] => None | _ => first _ end) as [g|] eqn:Eg.
    + intros [= <- <-]. cbn.
      destruct (ensure_guest_pii_guests db g wa_id) as (-> & _ & _).
      destruct hashes; [discriminate|].
      apply first_filter_Some in Eg as [[? ?] ?]. split; [assumption|]. split; [congruence|assumption].
    + destruct (insert_guest db (hotel_id hotel) _) as [g db1] eqn:Ei.
      intros [= <- <-]. cbn.
      destruct (ensure_guest_pii_guests db1 g wa_id) as (-> & _ & _).
      apply insert_guest_spec in Ei as (? & ? & ? & _). split; [assumption|].
      split; [congruence|assumption].
Qed.

End GlobalDiscovery.

Section VariantLookup.
Import IdentityResolver Spec ResolveSteps.










End VariantLookup.

Section VariantLookupExamples.
Import IdentityResolver Spec.



Lemma global_discovery_most_recent_checkin_witness :
  ∃ g h s,
    resolve_identity Examples.settings Examples.store_shared_phone 300
      "+40 721 000 111" None
    = (Some (mkIdentityContext h g (Some s)
               (determine_state (Some (stay_object s)) 300)),
       Examples.store_shared_phone)
    ∧ hotel_id h = 3 ∧ checkin_date Examples.shared_stay2 <= checkin_date s.
Proof.
  destruct (global_discovery_most_recent_checkin Examples.settings
              Examples.store_shared_phone 300 "+40 721 000 111" None
              (or_introl eq_refl)) as [Hfound _].
  assert (in_house_match Examples.store_shared_phone
            (List.map Sha256.hexdigest (phone_variants "+40 721 000 111"))
            Examples.shared_guest2 Examples.hotel2 Examples.shared_stay2) as Hm.
  { unfold in_house_match. repeat split; try (apply list_elem_of_In; vm_compute; tauto). }
  destruct Hfound as (g & h & s & Hr & _ & Hmax); [eauto|].
  exists g, h, s. split; [exact Hr|]. split; [|eapply Hmax, Hm].
  vm_compute in Hr. now injection Hr as <- _ _.
Defined.

End VariantLookupExamples.
(* ===================================================================== *)
(** ** PMS synchronisation engine *)
(* ===================================================================== *)

Section Checkin.
Import SyncEngine CheckinSteps.

Lemma handle_checkin_store db hid reservation stats now :
  (_handle_checkin db hid reservation stats now).1 = checkin db hid reservation now.
Proof.
  unfold _handle_checkin, checkin, prelude.
  destruct (_get_or_create_guest db hid (guest_phone reservation)) as [guest db1].
  destruct (_get_or_create_room _ hid (res_room_number reservation)) as [rid db4].
  destruct (find_existing_stay db4 hid (guest_id guest) (reservation_id reservation));
    [reflexivity|].
  unfold create_path, schedule_welcome, new_stay.
  destruct (_close_previous_stays db4 (guest_id guest) rid) as [closed db5]. cbn [snd].
  destruct (welcome_journey _ hid); [|reflexivity].
  destruct (existing_event _ _ _); reflexivity.
Qed.

(** *** Steps 1 to 4 *)

Lemma get_or_create_guest_spec db hid phone g db' :
  _get_or_create_guest db hid phone = (g, db') →
  first (filter (λ x, guest_hotel_id x = hid ∧ phone_hash x = _hash_phone phone)
                (guests db')) = Some g
  ∧ guest_piis db' = guest_piis db ∧ rooms db' = rooms db ∧ stays db' = stays db
  ∧ journeys db' = journeys db ∧ journey_events db' = journey_events db.
Proof.
  unfold _get_or_create_guest, IdentityResolver.insert_guest.
  destruct (first (filter _ (guests db))) as [g0|] eqn:E.
  - intros [= <- <-]. tauto.
  - intros [= <- <-]. cbn. split; [|tauto].
    apply first_None_nil in E. rewrite filter_app, E. cbn [app].
    now rewrite filter_cons_True.
Qed.

Lemma upsert_guest_pii_frame db guest name phone email :
  let db' := _upsert_guest_pii db guest name phone email in
  guests db' = guests db ∧ rooms db' = rooms db ∧ stays db' = stays db
  ∧ journeys db' = journeys db ∧ journey_events db' = journey_events db.
Proof.
  unfold _upsert_guest_pii. destruct (IdentityResolver.guest_pii db guest); cbn; tauto.
Qed.

Lemma get_or_create_room_spec db hid number rid db' :
  _get_or_create_room db hid number = (rid, db') →
  guests db' = guests db ∧ guest_piis db' = guest_piis db ∧ stays db' = stays db
  ∧ journeys db' = journeys db ∧ journey_events db' = journey_events db
  ∧ (∀ r, r ∈ rooms db → r ∈ rooms db')
  ∧ (∀ dbx, rooms dbx = rooms db' → _get_or_create_room dbx hid number = (rid, dbx)).
Proof.
  unfold _get_or_create_room. destruct number as [number|]; [|intros [= <- <-]; tauto].
  destruct (negb (truthy number)); [intros [= <- <-]; tauto|].
  destruct (first (filter _ (rooms db))) as [room|] eqn:E; intros [= <- <-].
  - split_and!; try tauto. intros dbx ->. now rewrite E.
  - cbn. split_and!; try reflexivity.
    + intros r Hr. apply elem_of_app. now left.
    + intros dbx ->. apply first_None_nil in E.
      rewrite filter_app, E. cbn [app]. now rewrite filter_cons_True.
Qed.

Lemma get_or_create_room_id db hid number rid db' :
  _get_or_create_room db hid number = (rid, db') →
  match rid with
  | Some n => ∃ r, r ∈ rooms db' ∧ room_id r = n ∧ room_hotel_id r = hid
  | None => True
  end.
Proof.
  unfold _get_or_create_room. destruct number as [number|]; [|now intros [= <- <-]].
  destruct (negb (truthy number)); [now intros [= <- <-]|].
  destruct (first (filter _ (rooms db))) as [room|] eqn:E; intros [= <- <-].
  - apply first_filter_Some in E as [[? ?] ?]. eauto.
  - eexists. cbn. split; [apply elem_of_app; right; left|]. split; reflexivity.
Qed.

Lemma prelude_spec db hid reservation guest rid db' :
  prelude db hid reservation = (guest, rid, db') →
  stays db' = stays db ∧ journeys db' = journeys db
  ∧ journey_events db' = journey_events db
  ∧ (∃ g', first (filter (λ x, guest_hotel_id x = hid
                               ∧ phone_hash x = _hash_phone (guest_phone reservation))
                         (guests db')) = Some g'
           ∧ guest_id g' = guest_id guest)
  ∧ (∀ dbx, rooms dbx = rooms db' →
            _get_or_create_room dbx hid (res_room_number reservation) = (rid, dbx)).
Proof.
  unfold prelude.
  destruct (_get_or_create_guest db hid (guest_phone reservation)) as [g db1] eqn:E1.
  apply get_or_create_guest_spec in E1 as (Hl & _ & _ & Es1 & Ej1 & Ee1).
  pose proof (upsert_guest_pii_frame db1 g (guest_name reservation)
                (guest_phone reservation) (guest_email reservation))
    as (Eg2 & _ & Es2 & Ej2 & Ee2). cbn zeta in *.
  set (db2 := _upsert_guest_pii db1 g _ _ _) in *.
  set (db3 := if _ && _ then _ else db2).
  assert (stays db3 = stays db2 ∧ journeys db3 = journeys db2
          ∧ journey_events db3 = journey_events db2
          ∧ ∃ g', first (filter (λ x, guest_hotel_id x = hid
                                      ∧ phone_hash x = _hash_phone (guest_phone reservation))
                                (guests db3)) = Some g'
                  ∧ guest_id g' = guest_id g) as (Es3 & Ej3 & Ee3 & Hl3).
  { unfold db3. destruct (_ && _); cbn; [|rewrite Eg2; eauto 6].
    split_and!; try reflexivity.
    rewrite filter_map_stable by (intros x; now destruct (decide _)).
    rewrite first_map, Eg2, Hl. cbn. eexists. split; [reflexivity|].
    now destruct (decide _). }
  destruct (_get_or_create_room db3 hid (res_room_number reservation))
    as [rid' db4] eqn:E4.
  intros [= <- <- <-].
  apply get_or_create_room_spec in E4 as (Eg4 & _ & Es4 & Ej4 & Ee4 & _ & Hr4).
  rewrite Eg4. split_and!; try congruence; assumption.
Qed.

(** *** Closing previous stays, creating the new one *)


Lemma next_id_map {A} (key : A → Z) (f : A → A) (l : list A) :
  (∀ x, key (f x) = key x) → next_id key (List.map f l) = next_id key l.
Proof.
  intros Hf. unfold next_id. f_equal. rewrite List.map_map.
  f_equal. apply List.map_ext. intros x. apply Hf.
Qed.

Lemma closing_fields (c : Stay → Stay) (s : Stay) :
  closing c →
  stay_id (c s) = stay_id s ∧ stay_hotel_id (c s) = stay_hotel_id s
  ∧ stay_guest_id (c s) = stay_guest_id s ∧ stay_room_id (c s) = stay_room_id s
  ∧ pms_reservation_id (c s) = pms_reservation_id s
  ∧ (stay_status (c s) = StayStatus.IN_HOUSE → stay_status s = StayStatus.IN_HOUSE
                                               ∧ c s = s).
Proof.
  intros Hc. destruct (Hc s) as [-> | ->]; cbn; split_and!; try reflexivity; try tauto.
  discriminate.
Qed.

Lemma closing_update (ids : list Z) :
  closing (λ s, if decide (stay_id s ∈ ids)
                then set_stay_status StayStatus.POST_STAY s else s).
Proof. intros s. destruct (decide _); tauto. Qed.

Lemma closing_compose (c1 c2 : Stay → Stay) :
  closing c1 → closing c2 → closing (λ s, c2 (c1 s)).
Proof.
  intros H1 H2 s. destruct (H1 s) as [-> | ->]; [apply H2|].
  destruct (H2 (set_stay_status StayStatus.POST_STAY s)) as [-> | ->]; tauto.
Qed.

Lemma close_previous_stays_spec db gid rid :
  let db' := (_close_previous_stays db gid rid).2 in
  guests db' = guests db ∧ guest_piis db' = guest_piis db ∧ rooms db' = rooms db
  ∧ journeys db' = journeys db ∧ journey_events db' = journey_events db
  ∧ ∃ c, closing c ∧ stays db' = List.map c (stays db)
         ∧ (∀ s, s ∈ stays db → stay_guest_id s = gid →
                 stay_status (c s) ≠ StayStatus.IN_HOUSE)
         ∧ (truthy_int rid = true →
            ∀ s, s ∈ stays db → stay_room_id s = rid →
                 stay_status (c s) ≠ StayStatus.IN_HOUSE).
Proof.
  unfold _close_previous_stays, update_stays. cbn zeta.
  set (ids1 := List.map stay_id (filter _ (stays db))).
  set (c1 := λ s, if decide (stay_id s ∈ ids1)
                  then set_stay_status StayStatus.POST_STAY s else s).
  assert (closing c1) as Hc1 by apply closing_update.
  assert (∀ s, s ∈ stays db → stay_guest_id s = gid →
               stay_status (c1 s) ≠ StayStatus.IN_HOUSE) as Hg1.
  { intros s Hs Hg Hst.
    destruct (closing_fields c1 s Hc1) as (_ & _ & _ & _ & _ & Hin).
    destruct (Hin Hst) as [Hin1 Heq]. unfold c1 in Hst.
    rewrite decide_True in Hst; [discriminate|].
    unfold ids1. apply list_elem_of_fmap_2. apply list_elem_of_filter. tauto. }
  destruct (truthy_int rid) eqn:Et; cbn [snd stays set_stays guests guest_piis rooms
                                          journeys journey_events].
  - set (ids2 := List.map stay_id (filter _ (List.map c1 (stays db)))).
    set (c2 := λ s, if decide (stay_id s ∈ ids2)
                    then set_stay_status StayStatus.POST_STAY s else s).
    assert (closing c2) as Hc2 by apply closing_update.
    split_and!; try reflexivity.
    exists (λ s, c2 (c1 s)). split_and!.
    + now apply closing_compose.
    + now rewrite List.map_map.
    + intros s Hs Hg Hst.
      destruct (closing_fields c2 (c1 s) Hc2) as (_ & _ & _ & _ & _ & Hin).
      destruct (Hin Hst) as [Hin1 _]. now apply (Hg1 s).
    + intros _ s Hs Hr Hst.
      destruct (closing_fields c2 (c1 s) Hc2) as (_ & _ & _ & _ & _ & Hin).
      destruct (Hin Hst) as [Hin1 Heq].
      destruct (closing_fields c1 s Hc1) as (_ & _ & Eg & Er & _ & _).
      unfold c2 in Hst. rewrite decide_True in Hst; [discriminate|].
      unfold ids2. apply list_elem_of_fmap_2. apply list_elem_of_filter. split.
      * split_and!; [congruence|assumption|].
        intros Hgid. apply (Hg1 s Hs); congruence.
      * now apply list_elem_of_fmap_2.
  - split_and!; try reflexivity.
    exists c1. split_and!; try assumption; [reflexivity|discriminate].
Qed.

Lemma schedule_welcome_spec db hid gid sid now :
  let db' := schedule_welcome db hid gid sid now in
  guests db' = guests db ∧ guest_piis db' = guest_piis db ∧ rooms db' = rooms db
  ∧ stays db' = stays db ∧ journeys db' = journeys db
  ∧ ∃ evs, journey_events db' = journey_events db ++ evs
           ∧ (List.length evs ≤ 1)%nat
           ∧ ∀ e, e ∈ evs → event_stay_id e = sid.
Proof.
  unfold schedule_welcome. destruct (welcome_journey db hid) as [j|].
  - destruct (existing_event db sid (journey_id j)); cbn.
    + split_and!; try reflexivity. exists []. rewrite app_nil_r. split_and!; auto.
      intros e He. now apply elem_of_nil in He.
    + split_and!; try reflexivity. eexists. split; [reflexivity|]. split; [cbn; lia|].
      intros e He. apply list_elem_of_singleton in He. now subst e.
  - cbn. split_and!; try reflexivity. exists []. rewrite app_nil_r. split_and!; auto.
    intros e He. now apply elem_of_nil in He.
Qed.

Lemma create_path_spec db hid gid rid reservation now :
  let db' := create_path db hid gid rid reservation now in
  guests db' = guests db ∧ guest_piis db' = guest_piis db ∧ rooms db' = rooms db
  ∧ journeys db' = journeys db
  ∧ (∃ c, closing c
          ∧ stays db' = List.map c (stays db) ++ [new_stay db hid gid rid reservation]
          ∧ (∀ s, s ∈ stays db → stay_guest_id s = gid →
                  stay_status (c s) ≠ StayStatus.IN_HOUSE)
          ∧ (truthy_int rid = true →
             ∀ s, s ∈ stays db → stay_room_id s = rid →
                  stay_status (c s) ≠ StayStatus.IN_HOUSE))
  ∧ ∃ evs, journey_events db' = journey_events db ++ evs
           ∧ (List.length evs ≤ 1)%nat
           ∧ ∀ e, e ∈ evs → event_stay_id e = next_id stay_id (stays db).
Proof.
  unfold create_path. cbn zeta.
  pose proof (close_previous_stays_spec db gid rid)
    as (Eg & Ep & Er & Ej & Ee & c & Hc & Es & Hcg & Hcr). cbn zeta in *.
  set (dbc := (_close_previous_stays db gid rid).2) in *.
  assert (new_stay dbc hid gid rid reservation = new_stay db hid gid rid reservation)
    as Hns.
  { unfold new_stay. rewrite Es, next_id_map; [reflexivity|].
    intros s. now destruct (closing_fields c s Hc). }
  rewrite Hns.
  pose proof (schedule_welcome_spec
                (set_stays dbc (stays dbc ++ [new_stay db hid gid rid reservation]))
                hid gid (stay_id (new_stay db hid gid rid reservation)) now)
    as (Eg' & Ep' & Er' & Es' & Ej' & evs & Ee' & Hlen & Hevs). cbn zeta in *.
  cbn [guests guest_piis rooms stays journeys journey_events set_stays] in *.
  split_and!; try congruence.
  - exists c. split_and!; try assumption. now rewrite Es', Es.
  - exists evs. split_and!; try assumption. now rewrite Ee', Ee.
Qed.

(** *** Processing the same reservation twice *)

Lemma update_stays_length ids f l : List.length (update_stays ids f l) = List.length l.
Proof. apply List.length_map. Qed.

Lemma filter_length_le {A} (P Q : A → Prop) `{∀ x, Decision (P x)} `{∀ x, Decision (Q x)}
    (l : list A) :
  (∀ x, P x → Q x) → (List.length (filter P l) ≤ List.length (filter Q l))%nat.
Proof.
  intros HPQ. induction l as [|a l IH]; [reflexivity|]. rewrite !filter_cons.
  destruct (decide (P a)) as [HP|HP], (decide (Q a)) as [HQ|HQ]; cbn; try lia.
  exfalso. auto.
Qed.


(** *** The occupancy invariant on the create path *)

Lemma filter_map_length_le {A} (P : A → Prop) `{∀ x, Decision (P x)} (f : A → A)
    (l : list A) :
  (∀ x, P (f x) → P x) →
  (List.length (filter P (List.map f l)) ≤ List.length (filter P l))%nat.
Proof.
  intros Hf. induction l as [|a l IH]; [reflexivity|]. cbn [List.map].
  rewrite !filter_cons.
  destruct (decide (P (f a))) as [H1|H1], (decide (P a)) as [H2|H2]; cbn; try lia.
  exfalso. auto.
Qed.

Lemma filter_nil_forall {A} (P : A → Prop) `{∀ x, Decision (P x)} (l : list A) :
  (∀ x, x ∈ l → ¬ P x) → filter P l = [].
Proof.
  intros Hl. induction l as [|a l IH]; [reflexivity|].
  rewrite filter_cons_False by (apply Hl; left).
  apply IH. intros x Hx. apply Hl. now right.
Qed.

Lemma next_id_pos {A} (key : A → Z) (l : list A) : 0 < next_id key l.
Proof.
  unfold next_id. assert (0 <= fold_right Z.max 0 (List.map key l)); [|lia].
  induction l; cbn; lia.
Qed.

Lemma prelude_room_nonzero db hid reservation guest rid dbp :
  prelude db hid reservation = (guest, rid, dbp) →
  (∀ r, r ∈ rooms db → room_id r ≠ 0) →
  rid = None ∨ truthy_int rid = true.
Proof.
  unfold prelude.
  destruct (_get_or_create_guest db hid (guest_phone reservation)) as [g db1] eqn:E1.
  apply get_or_create_guest_spec in E1 as (_ & _ & Er1 & _).
  pose proof (upsert_guest_pii_frame db1 g (guest_name reservation)
                (guest_phone reservation) (guest_email reservation))
    as (_ & Er2 & _). cbn zeta in *.
  set (db2 := _upsert_guest_pii db1 g _ _ _) in *.
  set (db3 := if _ && _ then _ else db2).
  assert (rooms db3 = rooms db) as Er3.
  { unfold db3. destruct (_ && _); cbn; congruence. }
  unfold _get_or_create_room.
  destruct (res_room_number reservation) as [number|]; [|intros [= <- <- <-]; now left].
  destruct (negb (truthy number)); [intros [= <- <- <-]; now left|].
  destruct (first (filter _ (rooms db3))) as [room|] eqn:E; intros [= <- <- <-] Hnz.
  - right. cbn. apply first_filter_Some in E as [_ Hin]. rewrite Er3 in Hin.
    apply Hnz in Hin. now apply negb_true_iff, Z.eqb_neq.
  - right. cbn. pose proof (next_id_pos room_id (rooms db3)).
    apply negb_true_iff, Z.eqb_neq. lia.
Qed.

(** The create path establishes the invariant for the guest and the room
    of the new stay and keeps it for all others: what the update path
    misses (see [reopened_stay_shares_room]). *)
Lemma create_path_keeps_occupancy_invariant (db : Store) (hid : Z)
    (reservation : PMSReservation) (stats : SyncStats) (now : datetime) :
  let db1 := (_handle_checkin db hid reservation stats now).1 in
  List.length (stays db1) = S (List.length (stays db)) →
  (∀ r, r ∈ rooms db → room_id r ≠ 0) →
  Spec.one_in_house_per_guest db → Spec.one_in_house_per_room db →
  Spec.one_in_house_per_guest db1 ∧ Spec.one_in_house_per_room db1.
Proof.
  intros db1 Hcreated Hnz Hguest Hroom. unfold db1 in *. clear db1.
  rewrite handle_checkin_store in *. unfold checkin in *.
  destruct (prelude db hid reservation) as [[g rid] dbp] eqn:Ep.
  pose proof (prelude_spec _ _ _ _ _ _ Ep) as (Esp & _ & _ & _ & _).
  pose proof (prelude_room_nonzero _ _ _ _ _ _ Ep Hnz) as Hrid.
  destruct (find_existing_stay dbp hid (guest_id g) (reservation_id reservation))
    as [ex|] eqn:Ef.
  { exfalso. cbn in Hcreated. rewrite update_stays_length, Esp in Hcreated. lia. }
  pose proof (create_path_spec dbp hid (guest_id g) rid reservation now)
    as (_ & _ & _ & _ & (c & Hc & Es1 & Hcg & Hcr) & _).
  cbn zeta in *. rewrite Esp in *.
  assert (∀ s, stay_status (c s) = StayStatus.IN_HOUSE →
               stay_status s = StayStatus.IN_HOUSE ∧ c s = s) as Hin.
  { intros s. now destruct (closing_fields c s Hc) as (_&_&_&_&_&?). }
  split.
  - intros gid. unfold Spec.in_house_of_guest. rewrite Es1, filter_app, length_app.
    destruct (decide (gid = guest_id g)) as [->|Hne].
    + rewrite (filter_nil_forall _ (List.map c (stays db))).
      * cbn [List.length]. rewrite Nat.add_0_l. apply length_filter.
      * intros s Hs [Hg Hst]. apply list_elem_of_fmap in Hs as (s0 & -> & Hs0).
        destruct (Hin s0 Hst) as [_ Heq]. rewrite Heq in Hg.
        apply (Hcg s0 Hs0 Hg Hst).
    + rewrite (filter_cons_False _ (new_stay _ _ _ _ _)) by (cbn; intros [? _]; congruence).
      rewrite filter_nil. cbn [List.length]. rewrite Nat.add_0_r.
      etransitivity; [|apply (Hguest gid)]. apply filter_map_length_le.
      intros s [Hg Hst]. destruct (Hin s Hst) as [? Heq]. rewrite Heq in Hg. tauto.
  - intros r. unfold Spec.in_house_in_room. rewrite Es1, filter_app, length_app.
    destruct (decide (rid = Some r)) as [->|Hne].
    + destruct Hrid as [Hrid|Hrid]; [discriminate|].
      rewrite (filter_nil_forall _ (List.map c (stays db))).
      * cbn [List.length]. rewrite Nat.add_0_l. apply length_filter.
      * intros s Hs [Hr Hst]. apply list_elem_of_fmap in Hs as (s0 & -> & Hs0).
        destruct (Hin s0 Hst) as [_ Heq]. rewrite Heq in Hr.
        apply (Hcr Hrid s0 Hs0 Hr Hst).
    + rewrite (filter_cons_False _ (new_stay _ _ _ _ _)) by (cbn; intros [? _]; congruence).
      rewrite filter_nil. cbn [List.length]. rewrite Nat.add_0_r.
      etransitivity; [|apply (Hroom r)]. apply filter_map_length_le.
      intros s [Hr Hst]. destruct (Hin s Hst) as [? Heq]. rewrite Heq in Hr. tauto.
Qed.

(** *** At concrete stores *)



(** C2 at the failing input. Ana (R-1) and Bob (R-2) are both reported in
    house in room 101. The first sync pass creates Ana's stay, then Bob's,
    which closes Ana's (room turnover): one IN_HOUSE stay per guest and per
    room. The next pass finds Ana's stay by reservation id, forces it back
    to IN_HOUSE and returns before [_close_previous_stays]: room 101 then
    has two IN_HOUSE stays. *)
Theorem reopened_stay_shares_room :
  let before := Examples.store_ana_bob in
  let after := (_handle_checkin before 1 Examples.reservation_ana SyncStats_init 300).1 in
  Spec.one_in_house_per_guest before ∧ Spec.one_in_house_per_room before
  ∧ List.map stay_status (Spec.in_house_in_room 1 (stays after))
    = [StayStatus.IN_HOUSE; StayStatus.IN_HOUSE]
  ∧ ¬ Spec.one_in_house_per_room after.
Proof.
  cbn zeta. split_and!.
  - intros gid. unfold Spec.in_house_of_guest.
    set (l := stays Examples.store_ana_bob). vm_compute in l. subst l.
    rewrite !filter_cons, filter_nil.
    repeat case_decide; cbn; try lia; exfalso; intuition discriminate.
  - intros rid. unfold Spec.in_house_in_room.
    set (l := stays Examples.store_ana_bob). vm_compute in l. subst l.
    rewrite !filter_cons, filter_nil.
    repeat case_decide; cbn; try lia; exfalso; intuition discriminate.
  - vm_compute. reflexivity.
  - intros H. specialize (H 1). vm_compute in H. lia.
Qed.

End Checkin.
(* ===================================================================== *)
(** ** Journey scheduler *)
(* ===================================================================== *)

Section Journeys.
Import JobsJourney JourneySteps.

Lemma same_core_refl db : same_core db db.
Proof. unfold same_core. tauto. Qed.

Lemma same_core_trans db1 db2 db3 :
  same_core db1 db2 → same_core db2 db3 → same_core db1 db3.
Proof. unfold same_core. intros (?&?&?&?&?&?) (?&?&?&?&?&?). split_and!; congruence. Qed.

Lemma set_event_status_core db eid st : same_core db (set_event_status db eid st).
Proof. unfold same_core. cbn. tauto. Qed.

Lemma add_message_core db cid text at_ :
  same_core db (add_message db cid text at_)
  ∧ journey_events (add_message db cid text at_) = journey_events db.
Proof. unfold same_core. cbn. tauto. Qed.

Lemma event_conversation_core db e stay at_ c db' :
  event_conversation db e stay at_ = (c, db') →
  same_core db db' ∧ journey_events db' = journey_events db.
Proof.
  unfold event_conversation, same_core.
  destruct (first _) as [c0|]; [destruct (decide _)|]; intros [= <- <-]; cbn; tauto.
Qed.

Lemma set_event_status_events db db' eid st :
  journey_events db' = journey_events db →
  journey_events (set_event_status db' eid st) = journey_events (set_event_status db eid st).
Proof. intros H. cbn. now rewrite H. Qed.

(** What the loop body does to the store and the trace, whatever branch it
    takes. *)
Lemma process_event_spec w now db d :
  ∀ ctl db' tr, process_event w now db d = (ctl, db', tr) →
    same_core db db' ∧ events_updated_for (event_id d) db db'
    ∧ (∀ i, i ∈ tr → i = event_id d)
    ∧ (ctl = Raised → event_journey db d = None).
Proof.
  intros ctl db' tr. unfold process_event.
  assert (∀ dbx st, same_core db dbx → journey_events dbx = journey_events db →
            same_core db (set_event_status dbx (event_id d) st)
            ∧ events_updated_for (event_id d) db (set_event_status dbx (event_id d) st))
    as Hset.
  { intros dbx st Hc He. split.
    - eapply same_core_trans; [exact Hc|apply set_event_status_core].
    - right. exists st. now apply set_event_status_events. }
  assert (∀ i : Z, i ∈ [event_id d] → i = event_id d) as H1
    by (intros i Hi; now apply list_elem_of_singleton in Hi).
  assert (∀ i : Z, i ∈ [event_id d; event_id d] → i = event_id d) as H2.
  { intros i Hi. apply elem_of_cons in Hi as [->|Hi]; [reflexivity|].
    now apply list_elem_of_singleton in Hi. }
  assert (∀ i : Z, i ∈ @nil Z → i = event_id d) as H0
    by (intros i Hi; now apply elem_of_nil in Hi).
  destruct (event_stay db d) as [stay|].
  2:{ intros [= <- <- <-]. destruct (Hset db JourneyEventStatus.CANCELLED
                                       (same_core_refl db) eq_refl).
      split_and!; auto; discriminate. }
  destruct (decide _).
  { intros [= <- <- <-]. split_and!; auto using same_core_refl; [now left|discriminate]. }
  destruct (negb (whatsapp_opt_in stay)).
  { intros [= <- <- <-]. destruct (Hset db JourneyEventStatus.CANCELLED
                                     (same_core_refl db) eq_refl).
    split_and!; auto; discriminate. }
  destruct (negb (truthy_opt (_get_wa_id db d))).
  { intros [= <- <- <-]. destruct (Hset db JourneyEventStatus.CANCELLED
                                     (same_core_refl db) eq_refl).
    split_and!; auto; discriminate. }
  destruct (event_conversation db d stay (clock w (event_id d))) as [conv dbc] eqn:Ec.
  apply event_conversation_core in Ec as [Hc He].
  assert (event_journey dbc d = event_journey db d) as Hj.
  { unfold event_journey. destruct Hc as (_&_&_&_&_&->). reflexivity. }
  rewrite Hj.
  destruct (event_journey db d) as [journey|].
  2:{ intros [= <- <- <-]. split_and!; auto. now left. }
  destruct (first (filter _ (messages dbc))).
  { intros [= <- <- <-]. destruct (Hset dbc JourneyEventStatus.SENT Hc He).
    split_and!; auto; discriminate. }
  destruct (first (filter _ (hotels dbc))) as [hotel|].
  2:{ intros [= <- <- <-]. split_and!; auto; [now left|discriminate]. }
  destruct (provider_raises w (event_id d)).
  { intros [= <- <- <-]. destruct (Hset dbc JourneyEventStatus.CANCELLED Hc He).
    split_and!; auto; discriminate. }
  set (dbm := add_message dbc _ _ _).
  assert (same_core db dbm ∧ journey_events dbm = journey_events db) as [Hcm Hem].
  { unfold dbm. split; [eapply same_core_trans; [exact Hc|apply add_message_core]|].
    cbn [journey_events add_message set_messages]. exact He. }
  destruct (send w (event_id d)).
  - destruct (_ && _ && _ && _).
    + destruct (followup_send w (event_id d)); intros [= <- <- <-].
      * set (dbf := add_message dbm _ _ _).
        assert (same_core db dbf ∧ journey_events dbf = journey_events db) as [Hcf Hef].
        { unfold dbf. split; [eapply same_core_trans; [exact Hcm|apply add_message_core]|].
          cbn [journey_events add_message set_messages]. exact Hem. }
        destruct (Hset dbf JourneyEventStatus.SENT Hcf Hef).
        split_and!; auto; discriminate.
      * destruct (Hset dbm JourneyEventStatus.SENT Hcm Hem).
        split_and!; auto; discriminate.
    + intros [= <- <- <-]. destruct (Hset dbm JourneyEventStatus.SENT Hcm Hem).
      split_and!; auto; discriminate.
  - intros [= <- <- <-]. destruct (Hset dbm JourneyEventStatus.CANCELLED Hcm Hem).
    split_and!; auto; discriminate.
  - intros [= <- <- <-]. destruct (Hset dbm JourneyEventStatus.CANCELLED Hcm Hem).
    split_and!; auto; discriminate.
Qed.

(** An update of the rows with one id keeps every other row, and every id. *)
Lemma events_updated_map did db db' :
  events_updated_for did db db' →
  ∃ f, journey_events db' = List.map f (journey_events db)
       ∧ (∀ x, event_id (f x) = event_id x)
       ∧ (∀ x, event_id x ≠ did → f x = x).
Proof.
  intros [H|[st H]].
  - exists id. rewrite H. split_and!; auto. now rewrite List.map_id.
  - eexists. split; [exact H|]. split; intros x; destruct (decide _); cbn; congruence.
Qed.

Lemma events_updated_keeps did db db' x :
  events_updated_for did db db' → x ∈ journey_events db → event_id x ≠ did →
  x ∈ journey_events db'.
Proof.
  intros H Hx Hne. apply events_updated_map in H as (f & -> & _ & Hf).
  rewrite <- (Hf x Hne). now apply list_elem_of_fmap_2.
Qed.

Lemma events_updated_cancelled did eid db db' :
  events_updated_for did db db' → did ≠ eid → cancelled eid db → cancelled eid db'.
Proof.
  intros H Hne Hc x' Hx' Hid. apply events_updated_map in H as (f & E & Hfid & Hf).
  rewrite E in Hx'. apply list_elem_of_fmap in Hx' as (x & -> & Hx).
  rewrite Hfid in Hid. rewrite Hf by congruence. now apply Hc.
Qed.

Lemma events_updated_row did db db' eid :
  events_updated_for did db db' →
  (∃ x, x ∈ journey_events db ∧ event_id x = eid) →
  ∃ x, x ∈ journey_events db' ∧ event_id x = eid.
Proof.
  intros H (x & Hx & Hid). apply events_updated_map in H as (f & -> & Hfid & _).
  exists (f x). split; [now apply list_elem_of_fmap_2|]. now rewrite Hfid.
Qed.

(** The dispatch loop over events with other ids leaves a cancelled event
    cancelled and attempts no send for it. *)
Lemma dispatch_other_ids w now eid events :
  ∀ db db' tr, dispatch w now events db = (db', tr) →
    (∀ d, d ∈ events → event_id d ≠ eid) →
    same_core db db' ∧ (eid ∉ tr)
    ∧ (cancelled eid db → cancelled eid db')
    ∧ (∀ x, x ∈ journey_events db → event_id x = eid → x ∈ journey_events db')
    ∧ ((∃ x, x ∈ journey_events db ∧ event_id x = eid) →
       ∃ x, x ∈ journey_events db' ∧ event_id x = eid).
Proof.
  induction events as [|d events IH]; intros db db' tr Hd Hids; cbn in Hd.
  - injection Hd as <- <-. split_and!; auto using same_core_refl. apply not_elem_of_nil.
  - destruct (process_event w now db d) as [[ctl db1] tr1] eqn:Ep.
    apply process_event_spec in Ep as (Hc1 & Hu1 & Ht1 & _).
    assert (event_id d ≠ eid) as Hne by (apply Hids; left).
    assert (eid ∉ tr1) as Hn1 by (intros Hin; apply Ht1 in Hin; congruence).
    destruct ctl.
    + destruct (dispatch w now events db1) as [db2 tr2] eqn:Ed.
      injection Hd as <- <-.
      apply IH in Ed as (Hc2 & Hn2 & Hcan & Hkeep & Hrow);
        [|intros d' Hd'; apply Hids; now right].
      split_and!.
      * eapply same_core_trans; eauto.
      * rewrite elem_of_app. tauto.
      * intros H. eapply Hcan, events_updated_cancelled; eauto.
      * intros x Hx Hid. apply Hkeep; [|assumption].
        eapply events_updated_keeps; eauto. congruence.
      * intros H. eapply Hrow, events_updated_row; eauto.
    + injection Hd as <- <-. split_and!; auto.
      * intros H. eapply events_updated_cancelled; eauto.
      * intros x Hx Hid. eapply events_updated_keeps; eauto. congruence.
      * intros H. eapply events_updated_row; eauto.
Qed.

(** *** The staleness pass *)

Lemma cancel_fold (l : list JourneyEvent) :
  ∀ db,
    let db' := fold_left (λ db stale, set_event_status db (event_id stale)
                                        JourneyEventStatus.CANCELLED) l db in
    same_core db db'
    ∧ journey_events db' = List.map (cancel_row (List.map event_id l)) (journey_events db).
Proof.
  induction l as [|a l IH]; intros db; cbn zeta.
  - split; [apply same_core_refl|]. cbn. symmetry. apply map_id_in.
    intros x _. unfold cancel_row. rewrite decide_False; [reflexivity|apply not_elem_of_nil].
  - cbn [fold_left]. destruct (IH (set_event_status db (event_id a)
                                     JourneyEventStatus.CANCELLED)) as [Hc He].
    cbn zeta in *. split.
    + eapply same_core_trans; [apply set_event_status_core|exact Hc].
    + rewrite He. cbn [journey_events set_event_status set_journey_events].
      rewrite List.map_map. apply List.map_ext. intros x. unfold cancel_row.
      cbn [List.map]. destruct (decide (event_id x = event_id a)) as [E|E]; cbn.
      * rewrite (decide_True (P := event_id x ∈ event_id a :: _)) by (rewrite E; left).
        now destruct (decide _).
      * destruct (decide (event_id x ∈ List.map event_id l)) as [Hin|Hin].
        -- rewrite decide_True; [reflexivity|now right].
        -- rewrite decide_False; [reflexivity|].
           intros Hin'. apply elem_of_cons in Hin' as [?|?]; contradiction.
Qed.

Lemma cancel_stale_spec db now :
  same_core db (cancel_stale db now)
  ∧ (∀ eid, cancelled eid db → cancelled eid (cancel_stale db now))
  ∧ (∀ e, e ∈ journey_events db → event_status e = JourneyEventStatus.PENDING →
          run_at e <= now - timedelta_minutes 30 →
          cancelled (event_id e) (cancel_stale db now))
  ∧ (∀ eid, (∃ x, x ∈ journey_events db ∧ event_id x = eid) →
            ∃ x, x ∈ journey_events (cancel_stale db now) ∧ event_id x = eid).
Proof.
  unfold cancel_stale.
  set (stale := filter _ (journey_events db)).
  destruct (cancel_fold stale db) as [Hc He]. cbn zeta in *.
  split_and!; [exact Hc| | |].
  - intros eid Hcan x' Hx' Hid. rewrite He in Hx'.
    apply list_elem_of_fmap in Hx' as (x & -> & Hx). unfold cancel_row in *.
    destruct (decide _); [reflexivity|]. now apply Hcan.
  - intros e Hin Hp Hr x' Hx' Hid. rewrite He in Hx'.
    apply list_elem_of_fmap in Hx' as (x & -> & Hx). unfold cancel_row in *.
    destruct (decide (event_id x ∈ List.map event_id stale)) as [?|Hn]; [reflexivity|].
    exfalso. apply Hn. rewrite Hid. apply list_elem_of_fmap_2.
    apply list_elem_of_filter. tauto.
  - intros eid (x & Hx & Hid). exists (cancel_row (List.map event_id stale) x).
    split; [rewrite He; now apply list_elem_of_fmap_2|].
    unfold cancel_row. now destruct (decide _).
Qed.

Lemma due_events_not_cancelled db now eid d :
  cancelled eid db → d ∈ due_events db now → event_id d ≠ eid.
Proof.
  intros Hc Hd Hid. apply list_elem_of_filter in Hd as [[Hp _] Hd].
  rewrite (Hc d Hd Hid) in Hp. discriminate.
Qed.

(** One cycle, and any number of later ones, on a store where the event is
    cancelled. *)
Lemma cycle_keeps_cancelled w now eid db :
  cancelled eid db → (∃ x, x ∈ journey_events db ∧ event_id x = eid) →
  let r := process_pending_journeys w db now in
  cancelled eid r.1 ∧ (eid ∉ r.2) ∧ ∃ x, x ∈ journey_events r.1 ∧ event_id x = eid.
Proof.
  intros Hc Hrow. cbn zeta. unfold process_pending_journeys.
  destruct (cancel_stale_spec db now) as (_ & Hcs & _ & Hrs).
  destruct (dispatch w now _ _) as [db' tr] eqn:Ed. cbn.
  apply (dispatch_other_ids w now eid) in Ed as (_ & Hn & Hcan & _ & Hrow').
  - split_and!; [apply Hcan, Hcs, Hc|exact Hn|apply Hrow', Hrs, Hrow].
  - intros d Hd. eapply due_events_not_cancelled; [apply Hcs, Hc|exact Hd].
Qed.

Lemma cycles_keep_cancelled cycles :
  ∀ eid db,
    cancelled eid db → (∃ x, x ∈ journey_events db ∧ event_id x = eid) →
    let r := run_cycles cycles db in
    cancelled eid r.1 ∧ (eid ∉ r.2) ∧ ∃ x, x ∈ journey_events r.1 ∧ event_id x = eid.
Proof.
  induction cycles as [|[w now] cycles IH]; intros eid db Hc Hrow; cbn zeta.
  - cbn. split_and!; auto. apply not_elem_of_nil.
  - cbn [run_cycles].
    pose proof (cycle_keeps_cancelled w now eid db Hc Hrow) as (Hc1 & Hn1 & Hrow1).
    cbn zeta in *. destruct (process_pending_journeys w db now) as [db1 tr1].
    cbn [fst snd] in *.
    pose proof (IH eid db1 Hc1 Hrow1) as (Hc2 & Hn2 & Hrow2). cbn zeta in *.
    destruct (run_cycles cycles db1) as [db2 tr2]. cbn [fst snd] in *.
    split_and!; auto. rewrite elem_of_app. tauto.
Qed.

(** C5. In a scheduler cycle the staleness pass comes first and the dispatch
    pass reads the store it leaves. A PENDING event whose [run_at] is at
    least 30 minutes old at the start of the cycle is CANCELLED by the
    staleness pass, is not among the events the dispatch pass works on, has
    no send attempted for it in this cycle or any later one, and stays
    CANCELLED. *)
Theorem stale_event_cancelled_never_sent (w : World) (db : Store) (now : datetime)
    (later : list (World * datetime)) (e : JourneyEvent) :
  e ∈ journey_events db →
  event_status e = JourneyEventStatus.PENDING →
  run_at e <= now - timedelta_minutes 30 →
  let db0 := cancel_stale db now in
  let cycle := process_pending_journeys w db now in
  let rest := run_cycles later cycle.1 in
  cycle = dispatch w now (due_events db0 now) db0
  ∧ cancelled (event_id e) db0
  ∧ (∀ d, d ∈ due_events db0 now → event_id d ≠ event_id e)
  ∧ (event_id e ∉ cycle.2) ∧ cancelled (event_id e) cycle.1
  ∧ (event_id e ∉ rest.2) ∧ cancelled (event_id e) rest.1
  ∧ ∃ x, x ∈ journey_events rest.1 ∧ event_id x = event_id e.
Proof.
  intros Hin Hp Hr db0 cycle rest.
  destruct (cancel_stale_spec db now) as (_ & _ & Hcs & Hrs).
  assert (cancelled (event_id e) db0) as Hc0 by (apply Hcs; assumption).
  assert (∃ x, x ∈ journey_events db0 ∧ event_id x = event_id e) as Hrow0
    by (apply Hrs; eauto).
  assert (∀ d, d ∈ due_events db0 now → event_id d ≠ event_id e) as Hdue
    by (intros d Hd; eapply due_events_not_cancelled; eauto).
  assert (cancelled (event_id e) cycle.1 ∧ (event_id e ∉ cycle.2)
          ∧ ∃ x, x ∈ journey_events cycle.1 ∧ event_id x = event_id e)
    as (Hc1 & Hn1 & Hrow1).
  { unfold cycle, process_pending_journeys. fold db0.
    destruct (dispatch w now (due_events db0 now) db0) as [db' tr] eqn:Ed. cbn.
    apply (dispatch_other_ids w now (event_id e)) in Ed as (_ & Hn & Hcan & _ & Hrow');
      [|exact Hdue].
    split_and!; auto. }
  destruct (cycles_keep_cancelled later (event_id e) cycle.1 Hc1 Hrow1)
    as (Hc2 & Hn2 & Hrow2).
  split_and!; auto.
Qed.

(** *** Eligibility at dispatch time *)

Lemma NoDup_key_eq {A} (key : A → Z) (l : list A) (x y : A) :
  NoDup (List.map key l) → x ∈ l → y ∈ l → key x = key y → x = y.
Proof.
  induction l as [|a l IH]; intros Hnd Hx Hy Hk; [now apply elem_of_nil in Hx|].
  cbn in Hnd. apply NoDup_cons in Hnd as [Ha Hnd].
  apply elem_of_cons in Hx as [->|Hx]; apply elem_of_cons in Hy as [->|Hy]; auto.
  - exfalso. apply Ha. rewrite Hk. now apply list_elem_of_fmap_2.
  - exfalso. apply Ha. rewrite <- Hk. now apply list_elem_of_fmap_2.
Qed.

Lemma NoDup_key_filter {A} (key : A → Z) (P : A → Prop) `{∀ x, Decision (P x)}
    (l : list A) :
  NoDup (List.map key l) → NoDup (List.map key (filter P l)).
Proof.
  induction l as [|a l IH]; intros Hnd; [constructor|].
  cbn in Hnd. apply NoDup_cons in Hnd as [Ha Hnd]. rewrite filter_cons.
  destruct (decide (P a)); [|auto]. cbn. apply NoDup_cons. split; [|auto].
  intros Hin. apply Ha. apply list_elem_of_fmap in Hin as (x & -> & Hx).
  apply list_elem_of_filter in Hx as [_ Hx]. now apply list_elem_of_fmap_2.
Qed.

Lemma process_event_not_in_house w now db e stay :
  event_stay db e = Some stay →
  IdentityResolver.determine_state (Some (IdentityResolver.stay_object stay))
    (clock w (event_id e)) ≠ StayStatus.IN_HOUSE →
  process_event w now db e = (Continue, db, []).
Proof. intros Hs Hst. unfold process_event. rewrite Hs. now rewrite decide_True. Qed.

Lemma process_event_opted_out w now db e stay :
  event_stay db e = Some stay →
  IdentityResolver.determine_state (Some (IdentityResolver.stay_object stay))
    (clock w (event_id e)) = StayStatus.IN_HOUSE →
  whatsapp_opt_in stay = false →
  process_event w now db e
  = (Continue, set_event_status db (event_id e) JourneyEventStatus.CANCELLED, []).
Proof.
  intros Hs Hst Ho. unfold process_event. rewrite Hs.
  rewrite decide_False by (intros H; now apply H). now rewrite Ho.
Qed.

Lemma set_event_status_cancelled db eid :
  cancelled eid (set_event_status db eid JourneyEventStatus.CANCELLED)
  ∧ ((∃ x, x ∈ journey_events db ∧ event_id x = eid) →
     ∃ x, x ∈ journey_events (set_event_status db eid JourneyEventStatus.CANCELLED)
          ∧ event_id x = eid).
Proof.
  split.
  - intros x' Hx' Hid. cbn in Hx'. apply list_elem_of_fmap in Hx' as (x & -> & Hx).
    destruct (decide _); [reflexivity|]. cbn in Hid. contradiction.
  - intros (x & Hx & Hid). eexists. split.
    + cbn. apply list_elem_of_fmap_2. exact Hx.
    + now destruct (decide _).
Qed.

Lemma same_core_event_stay db db' e :
  same_core db db' → event_stay db' e = event_stay db e ∧ event_journey db' e = event_journey db e.
Proof. intros (_&_&_&_&Hs&Hj). unfold event_stay, event_journey. now rewrite Hs, Hj. Qed.

(** The dispatch loop, followed up to the turn of one event of its list. *)
Lemma dispatch_reaches w now e stay events :
  ∀ db db' tr, dispatch w now events db = (db', tr) →
    NoDup (List.map event_id events) → e ∈ events → e ∈ journey_events db →
    event_stay db e = Some stay →
    let state := IdentityResolver.determine_state
                   (Some (IdentityResolver.stay_object stay)) (clock w (event_id e)) in
    (state ≠ StayStatus.IN_HOUSE → e ∈ journey_events db' ∧ (event_id e ∉ tr))
    ∧ (state = StayStatus.IN_HOUSE → whatsapp_opt_in stay = false →
       (∀ d, d ∈ events → event_journey db d ≠ None) →
       cancelled (event_id e) db' ∧ (event_id e ∉ tr)
       ∧ ∃ x, x ∈ journey_events db' ∧ event_id x = event_id e).
Proof.
  induction events as [|d events IH]; intros db db' tr Hd Hnd He Hin Hs state;
    [now apply elem_of_nil in He|].
  cbn in Hnd. apply NoDup_cons in Hnd as [Hdn Hnd]. cbn in Hd.
  apply elem_of_cons in He as [Heq|He]; [subst d|].
  - (* the turn of [e] *)
    assert (∀ d', d' ∈ events → event_id d' ≠ event_id e) as Hids.
    { intros d' Hd' Hid. apply Hdn. rewrite <- Hid. now apply list_elem_of_fmap_2. }
    split.
    + intros Hst. rewrite (process_event_not_in_house w now db e stay Hs Hst) in Hd.
      destruct (dispatch w now events db) as [db2 tr2] eqn:Ed. injection Hd as <- <-.
      apply (dispatch_other_ids w now (event_id e)) in Ed as (_ & Hn & _ & Hkeep & _);
        [|exact Hids].
      split; [now apply Hkeep|exact Hn].
    + intros Hst Ho _. rewrite (process_event_opted_out w now db e stay Hs Hst Ho) in Hd.
      destruct (dispatch w now events _) as [db2 tr2] eqn:Ed. injection Hd as <- <-.
      apply (dispatch_other_ids w now (event_id e)) in Ed as (_ & Hn & Hcan & _ & Hrow);
        [|exact Hids].
      destruct (set_event_status_cancelled db (event_id e)) as [Hc Hr].
      split_and!; [now apply Hcan|exact Hn|apply Hrow, Hr; eauto].
  - assert (event_id d ≠ event_id e) as Hidne.
    { intros Hid. apply Hdn. rewrite Hid. now apply list_elem_of_fmap_2. }
    destruct (process_event w now db d) as [[ctl db1] tr1] eqn:Ep.
    apply process_event_spec in Ep as (Hc1 & Hu1 & Ht1 & Hraise).
    assert (event_id e ∉ tr1) as Hn1 by (intros Hi; apply Ht1 in Hi; congruence).
    assert (e ∈ journey_events db1) as Hin1
      by (eapply events_updated_keeps; eauto; congruence).
    destruct (same_core_event_stay db db1 e Hc1) as [Hs1 _].
    destruct ctl.
    + destruct (dispatch w now events db1) as [db2 tr2] eqn:Ed. injection Hd as <- <-.
      apply IH in Ed as [Hi Hii]; try assumption; [|congruence].
      split.
      * intros Hst. destruct (Hi Hst). split; [assumption|].
        rewrite elem_of_app. tauto.
      * intros Hst Ho Hfk. destruct Hii as (?&?&?); try assumption.
        { intros d' Hd'. destruct (same_core_event_stay db db1 d' Hc1) as [_ ->].
          apply Hfk. now right. }
        split_and!; try assumption. rewrite elem_of_app. tauto.
    + injection Hd as <- <-. split; [intros _; tauto|].
      intros _ _ Hfk. exfalso. apply (Hfk d); [left|auto].
Qed.

(** C6, as the code has it. At dispatch time the eligibility of a due
    PENDING event is checked again. When the state derived from the stay's
    dates is not IN_HOUSE the event is skipped: nothing is sent and its row
    stays as it is, PENDING, to be tried again by a later cycle (or cancelled
    by the staleness pass). When the stay is IN_HOUSE and the guest opted out,
    the event is set to CANCELLED and nothing is sent. *)
Theorem dispatch_rechecks_eligibility (w : World) (db : Store) (now : datetime)
    (e : JourneyEvent) (stay : Stay) :
  NoDup (List.map event_id (journey_events db)) →
  e ∈ journey_events db →
  event_status e = JourneyEventStatus.PENDING →
  now - timedelta_minutes 30 < run_at e <= now →
  event_stay db e = Some stay →
  let state := IdentityResolver.determine_state
                 (Some (IdentityResolver.stay_object stay)) (clock w (event_id e)) in
  let cycle := process_pending_journeys w db now in
  (state ≠ StayStatus.IN_HOUSE →
   e ∈ journey_events cycle.1 ∧ (event_id e ∉ cycle.2))
  ∧ (state = StayStatus.IN_HOUSE → whatsapp_opt_in stay = false →
     (∀ d, d ∈ journey_events db → event_journey db d ≠ None) →
     cancelled (event_id e) cycle.1 ∧ (event_id e ∉ cycle.2)
     ∧ ∃ x, x ∈ journey_events cycle.1 ∧ event_id x = event_id e).
Proof.
  intros Hnd Hin Hp Hr Hs state cycle. unfold cycle, process_pending_journeys.
  set (db0 := cancel_stale db now).
  destruct (cancel_stale_spec db now) as (Hc0 & _ & _ & _). fold db0 in Hc0.
  assert (journey_events db0
          = List.map (cancel_row
                        (List.map event_id
                           (filter (λ x, event_status x = JourneyEventStatus.PENDING
                                         ∧ run_at x <= now - timedelta_minutes 30)
                                   (journey_events db))))
                     (journey_events db)) as E0.
  { unfold db0, cancel_stale. apply cancel_fold. }
  set (stale := filter _ (journey_events db)) in E0.
  assert (∀ x, event_id (cancel_row (List.map event_id stale) x) = event_id x
               ∧ event_journey_id (cancel_row (List.map event_id stale) x)
                 = event_journey_id x) as Hrow.
  { intros x. unfold cancel_row. now destruct (decide _). }
  assert (e ∈ journey_events db0) as Hin0.
  { rewrite E0. replace e with (cancel_row (List.map event_id stale) e) at 1;
      [now apply list_elem_of_fmap_2|].
    unfold cancel_row. rewrite decide_False; [reflexivity|].
    intros Hi. apply list_elem_of_fmap in Hi as (x & Hid & Hx).
    apply list_elem_of_filter in Hx as [[_ Hrx] Hx].
    assert (e = x) by (eapply (NoDup_key_eq event_id); eauto). subst x. lia. }
  assert (e ∈ due_events db0 now) as Hdue.
  { apply list_elem_of_filter. split; [split; [assumption|lia]|assumption]. }
  assert (NoDup (List.map event_id (due_events db0 now))) as Hnd0.
  { apply NoDup_key_filter. rewrite E0, List.map_map.
    erewrite List.map_ext; [exact Hnd|]. intros x. apply Hrow. }
  destruct (same_core_event_stay db db0 e Hc0) as [Hs0 _]. rewrite <- Hs0 in Hs.
  destruct (dispatch w now (due_events db0 now) db0) as [db' tr] eqn:Ed. cbn [fst snd].
  destruct (dispatch_reaches w now e stay _ _ _ _ Ed Hnd0 Hdue Hin0 Hs) as [Hi Hii].
  split; [exact Hi|].
  intros Hst Ho Hfk. apply Hii; try assumption.
  intros d Hd. apply list_elem_of_filter in Hd as [_ Hd]. rewrite E0 in Hd.
  apply list_elem_of_fmap in Hd as (x & -> & Hx).
  destruct (same_core_event_stay db db0 (cancel_row (List.map event_id stale) x) Hc0)
    as [_ ->].
  specialize (Hfk x Hx). unfold event_journey in *.
  now rewrite (proj2 (Hrow x)).
Qed.

(** *** At concrete stores *)

Lemma stale_event_cancelled_never_sent_witness :
  let db := Examples.journey_store 5000000000 true 0 in
  let now := timedelta_minutes 30 in
  let later := [(Examples.world, timedelta_minutes 31); (Examples.world, timedelta_minutes 32)] in
  (1 ∉ (process_pending_journeys Examples.world db now).2)
  ∧ (1 ∉ (run_cycles later (process_pending_journeys Examples.world db now).1).2)
  ∧ cancelled 1 (run_cycles later (process_pending_journeys Examples.world db now).1).1.
Proof.
  cbn zeta.
  destruct (stale_event_cancelled_never_sent Examples.world
              (Examples.journey_store 5000000000 true 0) (timedelta_minutes 30)
              [(Examples.world, timedelta_minutes 31);
               (Examples.world, timedelta_minutes 32)]
              (Examples.welcome_event 0))
    as (_ & _ & _ & H1 & _ & H2 & H3 & _).
  - vm_compute. left.
  - reflexivity.
  - vm_compute. discriminate.
  - split_and!; assumption.
Defined.

Lemma dispatch_rechecks_eligibility_witness :
  Examples.welcome_event 1000 ∈
    journey_events (process_pending_journeys Examples.world
                      (Examples.journey_store 900 true 1000) 1000).1
  ∧ (1 ∉ (process_pending_journeys Examples.world
            (Examples.journey_store 900 true 1000) 1000).2)
  ∧ cancelled 1 (process_pending_journeys Examples.world
                   (Examples.journey_store 5000 false 1000) 1000).1.
Proof.
  destruct (dispatch_rechecks_eligibility Examples.world
              (Examples.journey_store 900 true 1000) 1000
              (Examples.welcome_event 1000) (Examples.stay_of_ana 900 true))
    as [Hskip _].
  { cbn. apply NoDup_singleton. }
  { vm_compute. left. }
  { reflexivity. }
  { vm_compute. split; [reflexivity|discriminate]. }
  { reflexivity. }
  destruct (dispatch_rechecks_eligibility Examples.world
              (Examples.journey_store 5000 false 1000) 1000
              (Examples.welcome_event 1000) (Examples.stay_of_ana 5000 false))
    as [_ Hout].
  { cbn. apply NoDup_singleton. }
  { vm_compute. left. }
  { reflexivity. }
  { vm_compute. split; [reflexivity|discriminate]. }
  { reflexivity. }
  destruct Hskip as [Hs1 Hs2]; [vm_compute; discriminate|].
  destruct Hout as (Ho1 & _ & _); [vm_compute; reflexivity|reflexivity| |].
  { intros d Hd. apply list_elem_of_singleton in Hd. subst d. vm_compute. discriminate. }
  split_and!; assumption.
Defined.

(** C6, as stated, fails: the guest's stay ended at 900, the welcome event
    is due at 1000 and the cycle runs at 1000; the derived state is
    POST_STAY, the loop body skips the event, and it is still PENDING after
    the cycle. *)
Lemma skipped_event_stays_pending : ¬ Spec.not_in_house_is_cancelled.
Proof.
  intros H.
  specialize (H Examples.world (Examples.journey_store 900 true 1000) 1000
                (Examples.welcome_event 1000) (Examples.stay_of_ana 900 true)).
  assert (event_status (Examples.welcome_event 1000) = JourneyEventStatus.CANCELLED)
    as Habs; [|discriminate].
  apply H;
    [ vm_compute; left | reflexivity | vm_compute; discriminate | reflexivity
    | vm_compute; discriminate | vm_compute; left | reflexivity ].
Qed.

End Journeys.
(* ===================================================================== *)
(** ** Task creation *)
(* ===================================================================== *)

Section TaskDedup.
Import Brain Tasks.




(** [create_task_entry], which nothing in the application calls, has no
    such gate: it always inserts. *)
Lemma create_task_entry_inserts db hid stay ty hotel lang priority build db_now :
  let r := create_task_entry db hid stay ty hotel lang priority build db_now in
  tasks r.2 = tasks db ++ [r.1.1]
  ∧ task_hotel_id r.1.1 = hid ∧ type_of_task r.1.1 = ty
  ∧ task_created_at r.1.1 = db_now.
Proof.
  unfold create_task_entry. destruct hotel as [hotel|]; [|cbn; tauto].
  destruct (truthy_opt (staff_language hotel)); [cbn; tauto|].
  destruct (truthy_opt (settings_staff_language hotel)); cbn; tauto.
Qed.

Example create_task_entry_duplicates :
  let build := fun _ : string => "Room 101: towels" in
  let r1 := create_task_entry Examples.store_hotels 1 None TaskType.HOUSEKEEPING
              (Some Examples.hotel1) None None build 0 in
  let r2 := create_task_entry r1.2 1 None TaskType.HOUSEKEEPING
              (Some Examples.hotel1) None None build (timedelta_seconds 1) in
  List.map (λ t, (task_id t, task_hotel_id t, type_of_task t, staff_summary t,
                  task_created_at t)) (tasks r2.2)
  = [ (1, 1, TaskType.HOUSEKEEPING, Some "Room 101: towels", 0);
      (2, 1, TaskType.HOUSEKEEPING, Some "Room 101: towels", 1000000) ].
Proof. vm_compute. reflexivity. Qed.

End TaskDedup.
(* ===================================================================== *)
(** ** Room linking on the shared endpoint *)
(* ===================================================================== *)

Section RoomLinking.
Import Jobs RoutesWebhookWhatsapp.

Lemma many1_nonempty p l a b : Text.many1 p l = Some (a, b) → a ≠ [].
Proof.
  unfold Text.many1. destruct (Text.span p l) as [[|c a'] b'] eqn:E; [discriminate|].
  intros [= <- <-]. discriminate.
Qed.

Lemma truthy_string_of_list (l : list ascii) :
  l ≠ [] → truthy (string_of_list_ascii l) = true.
Proof. destruct l; [congruence|reflexivity]. Qed.

Lemma match_connect_room_truthy text room hid tok :
  Text.match_connect_room text = Some (room, hid, tok) → truthy room = true.
Proof.
  unfold Text.match_connect_room.
  destruct (Text.connect_room_head text) as [[r l]|] eqn:Eh; [|discriminate].
  cbn [mbind option_bind].
  destruct (Text.connect_room_tail l) as [[h t]|]; [|discriminate].
  cbn [mbind option_bind]. intros [= <- _ _].
  apply truthy_string_of_list. unfold Text.connect_room_head in Eh.
  destruct (Text.literal_ci _ text) as [l1|]; [|discriminate]. cbn [mbind option_bind] in Eh.
  destruct (Text.many1 Text.is_space l1) as [[? l2]|]; [|discriminate].
  cbn [mbind option_bind] in Eh.
  destruct (Text.literal_ci _ l2) as [l3|]; [|discriminate]. cbn [mbind option_bind] in Eh.
  destruct (Text.many1 Text.is_space l3) as [[? l4]|]; [|discriminate].
  cbn [mbind option_bind] in Eh.
  eapply many1_nonempty; eauto.
Qed.

(** When the conversation belongs to the tenant whose tokens are checked,
    the handler rejects a code scan with an absent or unregistered token and
    leaves the store alone. *)
Lemma room_link_rejected_in_own_tenant (w : World) (db : Store)
    (conversation : Conversation) (text : string) (wa_id : string)
    (now : datetime) (hotel : Hotel) (room : string) (hid tok : option string) :
  find_hotel db (conv_hotel_id conversation) = Some hotel →
  subscription_tier hotel ≠ "pro" →
  Text.match_connect_room (Text.strip text) = Some (room, hid, tok) →
  qr_tokens hotel ≠ ∅ →
  (tok = None ∨ ∃ t, tok = Some t ∧ qr_tokens hotel !! t = None) →
  _handle_whatsapp_room_linking w db conversation text wa_id now
  = (Handled true, db,
     [SendText wa_id "This QR code is not valid. Please scan the QR code in your room."]).
Proof.
  intros Hh Ht Hm Hq Htok. unfold _handle_whatsapp_room_linking.
  rewrite Hh, bool_decide_eq_false_2 by assumption. rewrite Hm.
  cbn [negb andb]. rewrite (match_connect_room_truthy _ _ _ _ Hm).
  rewrite bool_decide_eq_true_2 by assumption. cbn [andb].
  destruct Htok as [->|(t & -> & Hl)]; cbn [truthy_opt negb orb default].
  - reflexivity.
  - rewrite bool_decide_eq_true_2 by assumption. now rewrite orb_true_r.
Qed.

(** The shared endpoint rejects a message that carries a tenant id when that
    tenant has registered tokens and the token is absent or not registered;
    it only reads the store. *)
Lemma shared_endpoint_rejects (db : Store) (wa_id text : string) (h : Z) (hotel : Hotel) :
  truthy wa_id = true → truthy text = true → h ≠ 0 →
  find_hotel db h = Some hotel → qr_tokens hotel ≠ ∅ →
  (∀ tok, Text.search Text.hotel_and_token_here (Text.strip text) = Some (h, tok) →
          qr_tokens hotel !! tok = None →
          (receive_whatsapp_webhook_default db wa_id text).1 = InvalidToken)
  ∧ (Text.search Text.hotel_and_token_here (Text.strip text) = None →
     Text.search Text.hotel_here (Text.strip text) = Some h →
     (receive_whatsapp_webhook_default db wa_id text).1 = MissingToken).
Proof.
  intros Hw Ht Hh Hf Hq.
  assert (negb (h =? 0) = true) as Hnz by now apply negb_true_iff, Z.eqb_neq.
  split.
  - intros tok Hs Hl. unfold receive_whatsapp_webhook_default.
    rewrite Hw, Ht, Hs. cbn [negb truthy_int from_option id]. rewrite Hnz, Hf.
    now rewrite decide_True.
  - intros Hs1 Hs2. unfold receive_whatsapp_webhook_default.
    rewrite Hw, Ht, Hs1, Hs2. cbn [negb truthy_int from_option id]. rewrite Hnz, Hf.
    now rewrite decide_True.
Qed.

Lemma shared_endpoint_rejects_witness :
  (receive_whatsapp_webhook_default Examples.store_conversation "40721000111"
     "Connect Room 101 #2 !ffff").1 = InvalidToken
  ∧ (receive_whatsapp_webhook_default Examples.store_conversation "40721000111"
       "Connect Room 101 #2").1 = MissingToken.
Proof.
  assert (qr_tokens Examples.hotel2 ≠ ∅) as Hq by (vm_compute; discriminate).
  assert ((2:Z) ≠ 0) as H2 by discriminate.
  split.
  - destruct (shared_endpoint_rejects Examples.store_conversation "40721000111"
                "Connect Room 101 #2 !ffff" 2 Examples.hotel2
                eq_refl eq_refl H2 eq_refl Hq) as [Hinvalid _].
    apply (Hinvalid "ffff"); vm_compute; reflexivity.
  - destruct (shared_endpoint_rejects Examples.store_conversation "40721000111"
                "Connect Room 101 #2" 2 Examples.hotel2
                eq_refl eq_refl H2 eq_refl Hq) as [_ Hmissing].
    apply Hmissing; vm_compute; reflexivity.
Defined.

(** C8 at the failing input. Tenant 2 has a registered room-code token
    (a7b3c); tenant 1 has none. A guest with an open conversation in tenant 1
    sends "Connect Room 101 #2 !A7B3C": a tenant id and a token that is not
    registered. The shared endpoint reads neither (its pattern takes lower
    case hex only) and forwards the message to tenant 1, where the guest's
    conversation is. The room-linking handler reads both (its pattern ignores
    case), checks the token against the registry of the conversation's tenant,
    which is empty, and then creates room 101 under tenant 2 and links the
    conversation to it. The same happens with no token at all once the
    message reaches the handler. *)
Theorem room_link_checks_wrong_tenant :
  let db := Examples.store_conversation in
  let spoofed := "Connect Room 101 #2 !A7B3C" in
  let linked := _handle_whatsapp_room_linking Examples.jobs_world db
                  Examples.conversation1 spoofed "40721000111" 5000 in
  let no_token := _handle_whatsapp_room_linking Examples.jobs_world db
                    Examples.conversation1 "Connect Room 101 #2"
                    "40721000111" 5000 in
  qr_tokens Examples.hotel2 ≠ ∅
  ∧ qr_tokens Examples.hotel2 !! "A7B3C" = None
  ∧ receive_whatsapp_webhook_default db "40721000111" spoofed = (Forward 1, [])
  ∧ linked.1.1 = Handled true
  ∧ rooms linked.1.2 = [mkRoom 1 2 "101"]
  ∧ List.map conv_room_id (conversations linked.1.2) = [Some 1]
  ∧ linked.2 = [SendInteractive "40721000111" "Welcome to room 101"]
  ∧ no_token = linked.
Proof.
  cbn zeta. split_and!; try (vm_compute; reflexivity).
  vm_compute. discriminate.
Qed.

End RoomLinking.
